(** * Meta description extractor: a shallow embedding of
      [meta_description_extractor.py] and the properties of its pipeline
      (read the URL list, fetch, extract one meta tag, write the CSV).

    Python [str] values are modelled as [string], a character being a code
    point below 256; [str.lower] and [str.strip] are Python's on that
    range.  What the program calls and does not contain (the csv module,
    the tag scanner of html.parser, urllib and the network) is modelled
    next to it or taken as a parameter. *)

From Stdlib Require Import String Ascii List ZArith Lia Bool.
From stdpp Require Import base gmap strings list.
Import ListNotations.

Local Open Scope string_scope.
Local Open Scope list_scope.

(** ** Strings *)

Module PyStr.

(** The code points below 256 that [str.isspace] accepts: TAB, LF, VT, FF,
    CR, the separators FS, GS, RS and US, the space, NEL and the
    no-break space. *)
Definition isspace (c : ascii) : bool :=
  let n := nat_of_ascii c in
  ((9 <=? n)%nat && (n <=? 13)%nat) || ((28 <=? n)%nat && (n <=? 32)%nat)
  || (n =? 133)%nat || (n =? 160)%nat.

(** The capital letters below 256: A to Z, and the accented capitals but
    for the multiplication sign among them; each lies 32 below its small
    letter. *)
Definition isupper (c : ascii) : bool :=
  let n := nat_of_ascii c in
  ((65 <=? n)%nat && (n <=? 90)%nat)
  || ((192 <=? n)%nat && (n <=? 222)%nat && negb (n =? 215)%nat).

Definition lower_char (c : ascii) : ascii :=
  if isupper c then ascii_of_nat (nat_of_ascii c + 32) else c.

(** [s.lower()] *)
Fixpoint lower (s : string) : string :=
  match s with
  | EmptyString => EmptyString
  | String c r => String (lower_char c) (lower r)
  end.

(** [s.lstrip()] *)
Fixpoint lstrip (s : string) : string :=
  match s with
  | EmptyString => EmptyString
  | String c r => if isspace c then lstrip r else s
  end.

(** [s.rstrip()] *)
Fixpoint rstrip (s : string) : string :=
  match s with
  | EmptyString => EmptyString
  | String c r =>
      match rstrip r with
      | EmptyString => if isspace c then EmptyString else String c EmptyString
      | r' => String c r'
      end
  end.

(** [s.strip()] *)
Definition strip (s : string) : string := rstrip (lstrip s).

(** Truth value of a string: [bool(s)]. *)
Definition truthy (s : string) : bool :=
  match s with EmptyString => false | _ => true end.

(** [v or d] for an optional string [v]: [None] and the empty string are
    both falsy. *)
Definition or_else (v : option string) (d : string) : string :=
  match v with
  | Some s => if truthy s then s else d
  | None => d
  end.

(** Equality up to case, as the program tests it: both sides lowered. *)
Definition ci_eq (a b : string) : Prop := lower a = lower b.

#[global] Instance ci_eq_dec a b : Decision (ci_eq a b).
Proof. unfold ci_eq. apply _. Defined.

(** The strings of a list one after the other. *)
Definition join (parts : list string) : string :=
  fold_right String.append EmptyString parts.

(** [c in s] for a character. *)
Fixpoint contains (c : ascii) (s : string) : bool :=
  match s with
  | EmptyString => false
  | String d r => Ascii.eqb c d || contains c r
  end.

(** The code points below 256 that [repr] writes as they are: the ASCII
    range from the space to the tilde, and the range from the inverted
    exclamation mark up, but for the soft hyphen. *)
Definition isprintable (c : ascii) : bool :=
  let n := nat_of_ascii c in
  ((32 <=? n)%nat && (n <=? 126)%nat)
  || ((161 <=? n)%nat && negb (n =? 173)%nat).

Definition hex_digit (n : nat) : ascii :=
  if (n <? 10)%nat then ascii_of_nat (48 + n) else ascii_of_nat (87 + n).

(** One character of [repr(s)], [quote] being the quote in use. *)
Definition repr_char (quote c : ascii) : string :=
  let n := nat_of_ascii c in
  if Ascii.eqb c quote || Ascii.eqb c "\" then String "\" (String c EmptyString)
  else if (n =? 9)%nat then String "\" (String "t" EmptyString)
  else if (n =? 10)%nat then String "\" (String "n" EmptyString)
  else if (n =? 13)%nat then String "\" (String "r" EmptyString)
  else if isprintable c then String c EmptyString
  else String "\" (String "x" (String (hex_digit (n / 16))
                                (String (hex_digit (n mod 16)) EmptyString))).

Fixpoint repr_chars (quote : ascii) (s : string) : string :=
  match s with
  | EmptyString => EmptyString
  | String c r => repr_char quote c +:+ repr_chars quote r
  end.

(** [repr(s)]: between apostrophes, or between double quotes when the
    text holds an apostrophe and no double quote. *)
Definition repr (s : string) : string :=
  let quote : ascii :=
    if contains "'"%char s && negb (contains "034"%char s)
    then "034"%char else "'"%char in
  String quote (repr_chars quote s +:+ String quote EmptyString).

End PyStr.

(** ** The description extractor *)

Module Html.

(** One [handle_starttag] callback: the tag name and the attribute list,
    each attribute a name and an optional value ([None] for an attribute
    written without a value). *)
Definition attr : Type := string * option string.
Definition starttag : Type := string * list attr.

(** [class MetaDescriptionParser(HTMLParser)]: the only field the
    subclass adds. *)
Record MetaDescriptionParser := mkParser { meta_description : option string }.

(** [__init__] *)
Definition new_parser : MetaDescriptionParser := mkParser None.

(** [{name.lower(): (value or "") for name, value in attrs}]: the
    comprehension inserts from left to right, so a repeated name keeps
    its last value. *)
Definition attributes_of (attrs : list attr) : gmap string string :=
  fold_left
    (fun (m : gmap string string) (a : attr) =>
       <[PyStr.lower (fst a) := PyStr.or_else (snd a) ""]> m)
    attrs ∅.

(** [d.get(key, "")] *)
Definition dict_get (d : gmap string string) (key : string) : string :=
  default "" (d !! key).

Definition description_properties : gset string :=
  {[ "og:description"; "twitter:description" ]}.

(** [handle_starttag] *)
Definition handle_starttag (self : MetaDescriptionParser)
    (tag : string) (attrs : list attr) : MetaDescriptionParser :=
  match meta_description self with
  | Some _ => self
  | None =>
      if negb (PyStr.lower tag =? "meta") then self
      else
        let attributes := attributes_of attrs in
        let name_value := PyStr.lower (dict_get attributes "name") in
        let property_value := PyStr.lower (dict_get attributes "property") in
        if (name_value =? "description")
           || bool_decide (property_value ∈ description_properties)
        then mkParser (Some (PyStr.strip (dict_get attributes "content")))
        else self
  end.

(** What [HTMLParser.feed] does to the subclass: one [handle_starttag]
    call per start tag, in document order. *)
Definition feed_tags (self : MetaDescriptionParser)
    (tags : list starttag) : MetaDescriptionParser :=
  fold_left (fun p t => handle_starttag p (fst t) (snd t)) tags self.

(** [parser.meta_description or ""] after the tags were fed. *)
Definition description_of_tags (tags : list starttag) : string :=
  PyStr.or_else (meta_description (feed_tags new_parser tags)) "".

(** *** The tag as the specification words it *)

(** The value of the attribute called [key]: names compared lowered, an
    attribute without value reads as the empty string, and of a repeated
    attribute the last one counts. [None] when the tag has no such
    attribute. *)
Fixpoint attribute (attrs : list attr) (key : string) : option string :=
  match attrs with
  | [] => None
  | a :: rest =>
      match attribute rest key with
      | Some v => Some v
      | None =>
          if PyStr.lower (fst a) =? key
          then Some (PyStr.or_else (snd a) "")
          else None
      end
  end.

(** A meta tag whose [name] is "description" or whose [property] is
    "og:description" or "twitter:description", all up to case. *)
Definition matches (t : starttag) : Prop :=
  PyStr.ci_eq (fst t) "meta" /\
  (PyStr.ci_eq (default "" (attribute (snd t) "name")) "description" \/
   PyStr.ci_eq (default "" (attribute (snd t) "property")) "og:description" \/
   PyStr.ci_eq (default "" (attribute (snd t) "property")) "twitter:description").

(** The trimmed [content] attribute, empty when the tag has none. *)
Definition content_of (t : starttag) : string :=
  PyStr.strip (default "" (attribute (snd t) "content")).

#[global] Instance matches_dec t : Decision (matches t).
Proof. unfold matches, PyStr.ci_eq. apply _. Defined.

End Html.

(** ** Exceptions and results *)

Module Py.

(** The exception classes the program can meet, with their place in
    Python's hierarchy. *)
Inductive exc_class :=
| Exception | OSError | FileNotFoundError | TimeoutError
| URLError | HTTPError | ValueError | UnicodeError
| LookupError | CsvError | AssertionError.

Definition exc_parent (c : exc_class) : option exc_class :=
  match c with
  | Exception => None
  | OSError => Some Exception
  | FileNotFoundError => Some OSError
  | TimeoutError => Some OSError
  | URLError => Some OSError
  | HTTPError => Some URLError
  | ValueError => Some Exception
  | UnicodeError => Some ValueError
  | LookupError => Some Exception
  | CsvError => Some Exception
  | AssertionError => Some Exception
  end.

Definition exc_class_eqb (c d : exc_class) : bool :=
  match c, d with
  | Exception, Exception | OSError, OSError
  | FileNotFoundError, FileNotFoundError | TimeoutError, TimeoutError
  | URLError, URLError | HTTPError, HTTPError | ValueError, ValueError
  | UnicodeError, UnicodeError | LookupError, LookupError
  | CsvError, CsvError | AssertionError, AssertionError => true
  | _, _ => false
  end.

(** [issubclass c d]; the hierarchy above is four classes deep. *)
Fixpoint issubclass_upto (depth : nat) (c d : exc_class) : bool :=
  exc_class_eqb c d ||
  match depth, exc_parent c with
  | S k, Some p => issubclass_upto k p d
  | _, _ => false
  end.

Definition issubclass : exc_class -> exc_class -> bool := issubclass_upto 4.

(** A raised exception: its class and [str(exc)]. *)
Record exc := mkExc { exc_type : exc_class; exc_str : string }.

Inductive result (A : Type) : Type :=
| Return (a : A)
| Raise (e : exc).
Arguments Return {A} a.
Arguments Raise {A} e.

Definition bind {A B} (r : result A) (k : A -> result B) : result B :=
  match r with
  | Return a => k a
  | Raise e => Raise e
  end.

End Py.

(** ** The csv module, excel dialect

    [csv.writer(f)] and [csv.reader(f)] with no further argument use the
    excel dialect: delimiter comma, quote character the double quote,
    doubled quotes, no escape character, line terminator CR LF, minimal
    quoting, not strict.  The writer and the reader below are the
    module's record writer and its parser automaton at that dialect (the
    escape states, which need an escape character, are left out), with
    the module's field size limit at its default. *)

Module Csv.
Import Py.

Definition delimiter : ascii := ",".
Definition quotechar : ascii := "034".
Definition CR : ascii := "013".
Definition LF : ascii := "010".
Definition lineterminator : string := String CR (String LF EmptyString).

Definition is_newline (c : ascii) : bool := Ascii.eqb c CR || Ascii.eqb c LF.

(** *** Writer *)

(** The characters for which [join_append_data] sets [quoted]. *)
Definition special (c : ascii) : bool :=
  Ascii.eqb c delimiter || Ascii.eqb c quotechar || is_newline c.

(** First pass of [join_append]: does the field need quotes? *)
Fixpoint needs_quotes (fld : string) : bool :=
  match fld with
  | EmptyString => false
  | String c r => special c || needs_quotes r
  end.

(** The copy loop of [join_append_data]: a quote character is written
    twice, every other character once. *)
Fixpoint copy_data (fld : string) : string :=
  match fld with
  | EmptyString => EmptyString
  | String c r =>
      if Ascii.eqb c quotechar
      then String quotechar (String c (copy_data r))
      else String c (copy_data r)
  end.

Definition quote_field (quoted : bool) (data : string) : string :=
  if quoted
  then String quotechar (data +:+ String quotechar EmptyString)
  else data.

(** The record under construction: [rec] and [num_fields]. *)
Record WriterObj := mkWriter { rec : string; num_fields : nat }.

(** [join_append(self, field, quoted)] *)
Definition join_append (self : WriterObj) (fld : string) (quoted : bool)
    : WriterObj :=
  let sep := match num_fields self with
             | O => EmptyString
             | S _ => String delimiter EmptyString
             end in
  mkWriter
    (rec self +:+ sep +:+ quote_field (quoted || needs_quotes fld) (copy_data fld))
    (S (num_fields self)).

(** [writer.writerow(fields)]: the text written for one row.  A row that
    is one empty field is written as a pair of quotes. *)
Definition writerow (fields : list string) : string :=
  let self := fold_left (fun w f => join_append w f false) fields
                        (mkWriter EmptyString 0) in
  let self :=
    match num_fields self, rec self with
    | S _, EmptyString => join_append (mkWriter EmptyString 0) EmptyString true
    | _, _ => self
    end in
  rec self +:+ lineterminator.

(** Standard CSV quoting, as the specification has it: a field that
    holds a comma, a quote, a CR or a LF is put between quotes with its
    quotes doubled; any other field is written as it is. *)
Definition standard_quoting (fld : string) : string :=
  if needs_quotes fld
  then String quotechar (copy_data fld +:+ String quotechar EmptyString)
  else fld.

(** The text of a file of rows. *)
Definition text_of_rows (rows : list (list string)) : string :=
  PyStr.join (map writerow rows).

(** *** Lines of a text file opened with an empty [newline]

    A line ends after LF, after CR LF, or after a CR that no LF follows;
    the line keeps its ending.  [cur] is the line read so far. *)
Fixpoint readlines_from (cur : string) (text : string) : list string :=
  match text with
  | EmptyString =>
      match cur with EmptyString => [] | _ => [cur] end
  | String c rest =>
      let cur' := cur +:+ String c EmptyString in
      if Ascii.eqb c LF then cur' :: readlines_from EmptyString rest
      else if Ascii.eqb c CR then
        match rest with
        | String d rest' =>
            if Ascii.eqb d LF
            then (cur' +:+ String d EmptyString) :: readlines_from EmptyString rest'
            else cur' :: readlines_from EmptyString rest
        | EmptyString => cur' :: readlines_from EmptyString rest
        end
      else readlines_from cur' rest
  end.

Definition readlines (text : string) : list string :=
  readlines_from EmptyString text.

(** *** Reader *)

Inductive ParserState :=
| START_RECORD | START_FIELD | IN_FIELD | IN_QUOTED_FIELD
| QUOTE_IN_QUOTED_FIELD | EAT_CRNL.

Definition ParserState_eqb (a b : ParserState) : bool :=
  match a, b with
  | START_RECORD, START_RECORD | START_FIELD, START_FIELD
  | IN_FIELD, IN_FIELD | IN_QUOTED_FIELD, IN_QUOTED_FIELD
  | QUOTE_IN_QUOTED_FIELD, QUOTE_IN_QUOTED_FIELD | EAT_CRNL, EAT_CRNL => true
  | _, _ => false
  end.

(** The parser part of the reader object: the fields saved so far, the
    automaton state and the characters of the field being read. *)
Record ReaderObj := mkReader {
  fields : list string;
  state : ParserState;
  field : string
}.

Definition parse_reset : ReaderObj := mkReader [] START_RECORD EmptyString.

Definition parse_save_field (self : ReaderObj) : ReaderObj :=
  mkReader (fields self ++ [field self]) (state self) EmptyString.

(** The field size limit of the module, which the program leaves at its
    default. *)
Definition field_limit : N := 131072.

Definition field_larger_than_limit : exc :=
  mkExc CsvError "field larger than field limit (131072)".

(** A field the reader takes: at most [field_limit] characters. *)
Definition within_limit (fld : string) : Prop :=
  (N.of_nat (String.length fld) <= field_limit)%N.

Definition parse_add_char (self : ReaderObj) (c : ascii) : result ReaderObj :=
  if (field_limit <=? N.of_nat (String.length (field self)))%N
  then Raise field_larger_than_limit
  else Return (mkReader (fields self) (state self)
                        (field self +:+ String c EmptyString)).

Definition set_state (self : ReaderObj) (st : ParserState) : ReaderObj :=
  mkReader (fields self) st (field self).

Definition newline_in_unquoted_field : exc :=
  mkExc CsvError
    "new-line character seen in unquoted field - do you need to open the file with newline=''?".

(** The [START_FIELD] case of [parse_process_char], which the
    [START_RECORD] case falls through to. *)
Definition start_field (self : ReaderObj) (c : option ascii)
    : result ReaderObj :=
  match c with
  | None => Return (set_state (parse_save_field self) START_RECORD)
  | Some ch =>
      if is_newline ch then Return (set_state (parse_save_field self) EAT_CRNL)
      else if Ascii.eqb ch quotechar then Return (set_state self IN_QUOTED_FIELD)
      else if Ascii.eqb ch delimiter then Return (parse_save_field self)
      else bind (parse_add_char self ch) (fun s => Return (set_state s IN_FIELD))
  end.

(** [parse_process_char]; the end of a line is the character [None]. *)
Definition parse_process_char (self : ReaderObj) (c : option ascii)
    : result ReaderObj :=
  match state self with
  | START_RECORD =>
      match c with
      | None => Return self
      | Some ch =>
          if is_newline ch then Return (set_state self EAT_CRNL)
          else start_field (set_state self START_FIELD) c
      end
  | START_FIELD => start_field self c
  | IN_FIELD =>
      match c with
      | None => Return (set_state (parse_save_field self) START_RECORD)
      | Some ch =>
          if is_newline ch then Return (set_state (parse_save_field self) EAT_CRNL)
          else if Ascii.eqb ch delimiter
          then Return (set_state (parse_save_field self) START_FIELD)
          else parse_add_char self ch
      end
  | IN_QUOTED_FIELD =>
      match c with
      | None => Return self
      | Some ch =>
          if Ascii.eqb ch quotechar then Return (set_state self QUOTE_IN_QUOTED_FIELD)
          else parse_add_char self ch
      end
  | QUOTE_IN_QUOTED_FIELD =>
      match c with
      | None => Return (set_state (parse_save_field self) START_RECORD)
      | Some ch =>
          if Ascii.eqb ch quotechar
          then bind (parse_add_char self ch)
                    (fun s => Return (set_state s IN_QUOTED_FIELD))
          else if Ascii.eqb ch delimiter
          then Return (set_state (parse_save_field self) START_FIELD)
          else if is_newline ch
          then Return (set_state (parse_save_field self) EAT_CRNL)
          else bind (parse_add_char self ch)
                    (fun s => Return (set_state s IN_FIELD))
      end
  | EAT_CRNL =>
      match c with
      | None => Return (set_state self START_RECORD)
      | Some ch =>
          if is_newline ch then Return self
          else Raise newline_in_unquoted_field
      end
  end.

(** The inner loop of [Reader_iternext]: every character of one line. *)
Fixpoint process_line (self : ReaderObj) (line : string) : result ReaderObj :=
  match line with
  | EmptyString => Return self
  | String c rest =>
      bind (parse_process_char self (Some c)) (fun self' => process_line self' rest)
  end.

(** At the end of the input [Reader_iternext] returns what it holds when a
    field is under way or a quoted field is open. *)
Definition pending (self : ReaderObj) : bool :=
  PyStr.truthy (field self) || ParserState_eqb (state self) IN_QUOTED_FIELD.

(** [list(reader)]: the rows that iterating the reader yields.
    [Reader_iternext] resets the parser, then takes lines (all their
    characters, then the end-of-line mark) until the automaton is back in
    [START_RECORD]; the iteration calls it until the lines are used up.
    Both loops are one recursion on the lines here; [self] is the parser
    within the record being read. *)
Fixpoint reader_rows (self : ReaderObj) (lines : list string)
    : result (list (list string)) :=
  match lines with
  | [] =>
      if pending self
      then Return [fields (parse_save_field self)]
      else Return []
  | line :: rest =>
      bind (process_line self line) (fun self1 =>
      bind (parse_process_char self1 None) (fun self2 =>
      match state self2 with
      | START_RECORD =>
          bind (reader_rows parse_reset rest) (fun rows =>
          Return (fields self2 :: rows))
      | _ => reader_rows self2 rest
      end))
  end.

(** [list(csv.reader(f))] for a file with the text [text]. *)
Definition reader (text : string) : result (list (list string)) :=
  reader_rows parse_reset (readlines text).

(** *** The written row and the reader, character by character

    The definitions below serve the proof that the reader gives back what
    the writer wrote. *)

(** The fields after the first, each behind its delimiter. *)
Fixpoint sep_fields (flds : list string) : string :=
  match flds with
  | [] => EmptyString
  | f :: rest => String delimiter (standard_quoting f +:+ sep_fields rest)
  end.

(** The text of a row, field by field. *)
Definition row_text (flds : list string) : string :=
  match flds with
  | [] => lineterminator
  | [EmptyString] => String quotechar (String quotechar lineterminator)
  | f :: rest => standard_quoting f +:+ sep_fields rest +:+ lineterminator
  end.

(** Where the reader stands in the line being read: at its start, inside
    it, or behind a CR that may still be followed by a LF. *)
Inductive LinePos := AtStart | Inside | AfterCR.

Definition next_pos (c : ascii) : LinePos :=
  if Ascii.eqb c LF then AtStart
  else if Ascii.eqb c CR then AfterCR
  else Inside.

Fixpoint pos_after (pos : LinePos) (s : string) : LinePos :=
  match s with
  | EmptyString => pos
  | String c r => pos_after (next_pos c) r
  end.

(** The end of a line: the end-of-line mark, and a row when the automaton
    is back in [START_RECORD]. *)
Definition end_line (self : ReaderObj)
    (k : ReaderObj -> result (list (list string)))
    : result (list (list string)) :=
  bind (parse_process_char self None) (fun self2 =>
    match state self2 with
    | START_RECORD =>
        bind (k parse_reset) (fun rows => Return (fields self2 :: rows))
    | _ => k self2
    end).

(** The lines that remain when [cur] was read of the current line. *)
Definition lines_of (pos : LinePos) (cur text : string) : list string :=
  match pos with
  | AfterCR =>
      match text with
      | String d rest =>
          if Ascii.eqb d LF
          then (cur +:+ String d EmptyString) :: readlines_from EmptyString rest
          else cur :: readlines_from EmptyString text
      | EmptyString => [cur]
      end
  | _ => readlines_from cur text
  end.

(** The reader run on the text itself rather than on its lines: [self]
    has taken every character before [text]. *)
Fixpoint run (self : ReaderObj) (pos : LinePos) (text : string)
    : result (list (list string)) :=
  match text with
  | EmptyString =>
      match pos with
      | AtStart => reader_rows self []
      | _ => end_line self (fun s => reader_rows s [])
      end
  | String c rest =>
      let normal := fun s =>
        bind (parse_process_char s (Some c)) (fun s1 =>
          if Ascii.eqb c LF then end_line s1 (fun s2 => run s2 AtStart rest)
          else if Ascii.eqb c CR then run s1 AfterCR rest
          else run s1 Inside rest) in
      match pos with
      | AfterCR => if Ascii.eqb c LF then normal self else end_line self normal
      | _ => normal self
      end
  end.

(** How far the line read so far and the position agree. *)
Definition pos_ok (pos : LinePos) (cur : string) : Prop :=
  match pos with
  | AtStart => cur = EmptyString
  | _ => cur <> EmptyString
  end.

(** The two states a field can begin in. *)
Definition field_start (st0 : ParserState) : Prop :=
  st0 = START_RECORD \/ st0 = START_FIELD.

(** The parser when the text of the field [f] was read, the field having
    begun in the state [st0] with the fields [flds] saved. *)
Definition field_state (flds : list string) (st0 : ParserState) (f : string)
    : ReaderObj :=
  if needs_quotes f then mkReader flds QUOTE_IN_QUOTED_FIELD f
  else match f with
       | EmptyString => mkReader flds st0 EmptyString
       | _ => mkReader flds IN_FIELD f
       end.



(** [c * n] *)
Fixpoint copies (n : nat) (c : ascii) : string :=
  match n with
  | O => EmptyString
  | S k => String c (copies k c)
  end.

End Csv.

(** ** urllib: what constructing a [Request] checks

    [Request.__init__] stores the URL through [unwrap] and [_splittag] and
    then raises [ValueError] when [_splittype] finds no scheme in it. *)

Module Urllib.
Import Py.

Definition starts_with (p s : string) : bool := String.prefix p s.

Fixpoint last_char (s : string) : option ascii :=
  match s with
  | EmptyString => None
  | String c EmptyString => Some c
  | String _ r => last_char r
  end.

Fixpoint drop_last (s : string) : string :=
  match s with
  | EmptyString => EmptyString
  | String c EmptyString => EmptyString
  | String c r => String c (drop_last r)
  end.

(** [unwrap(url)] *)
Definition unwrap (url : string) : string :=
  let url := PyStr.strip url in
  let url :=
    match url, last_char url with
    | String first inner, Some final =>
        if Ascii.eqb first "<" && Ascii.eqb final ">"
        then PyStr.strip (drop_last inner)
        else url
    | _, _ => url
    end in
  if starts_with "URL:" url
  then PyStr.strip (String.substring 4 (String.length url - 4) url)
  else url.

(** [url.rpartition("#")] when the text holds a number sign: the text
    before the last one and the text after it. *)
Fixpoint rpartition_hash (url : string) : option (string * string) :=
  match url with
  | EmptyString => None
  | String c r =>
      match rpartition_hash r with
      | Some (path, tag) => Some (String c path, tag)
      | None => if Ascii.eqb c "#" then Some (EmptyString, r) else None
      end
  end.

(** [_splittag(url)] *)
Definition splittag (url : string) : string * option string :=
  match rpartition_hash url with
  | Some (path, tag) => (path, Some tag)
  | None => (url, None)
  end.

(** The [full_url] property: the fragment is put back when it is not
    empty. *)
Definition full_url_of (path : string) (fragment : option string) : string :=
  match fragment with
  | Some (String c t) => path +:+ "#" +:+ String c t
  | _ => path
  end.

(** [repr(s)], the [%r] of the message. *)
Definition repr (s : string) : string := PyStr.repr s.

(** [_splittype(url)[0] is not None]: the text starts with one or more
    characters other than slash and colon, and then a colon. *)
Fixpoint has_type_from (seen : bool) (url : string) : bool :=
  match url with
  | EmptyString => false
  | String c r =>
      if Ascii.eqb c ":" then seen
      else if Ascii.eqb c "/" then false
      else has_type_from true r
  end.

Definition has_type (url : string) : bool := has_type_from false url.

(** The exception [Request(url, ...)] raises, if any. *)
Definition Request_check (url : string) : option exc :=
  let (path, fragment) := splittag (unwrap url) in
  if has_type path then None
  else Some (mkExc ValueError
               ("unknown url type: " +:+ repr (full_url_of path fragment))).

End Urllib.

(** ** The program *)

Module App.
Import Py.

Definition DEFAULT_INPUT : string := "urls.csv".
Definition DEFAULT_OUTPUT : string := "meta_descriptions_output.csv".
Definition DEFAULT_TIMEOUT : Z := 10.
Definition DEFAULT_USER_AGENT : string := "MetaDescriptionFetcher/stdlib".

(** [@dataclass class MetaDescriptionResult] *)
Record MetaDescriptionResult := mkResult { url : string; description : string }.

(** The request object [fetch_html] builds. *)
Record Request := mkRequest { full_url : string; headers : list (string * string) }.

(** What the program does not contain and only calls: the tag scanner of
    [html.parser], the check [Request] makes on its URL, and the network
    behind [urlopen].  [starttags html] are the [handle_starttag] calls
    that [feed(html)] makes, in document order (a self-closing tag is one
    of them), together with the exception [feed] raises after them, if it
    raises.  [open_and_read past req timeout] is the outcome of the body
    of the [with urlopen(...)] statement, decoding included: the page
    text, or the exception raised there; it may depend on the requests
    [past] made before. *)
Record Env := mkEnv {
  starttags : string -> list Html.starttag * option exc;
  Request_check : string -> option exc;
  open_and_read : list Request -> Request -> Z -> result string
}.

(** The state the program acts on: the files by path, the lines printed,
    and the requests sent so far. *)
Record World := mkWorld {
  files : gmap string string;
  stdout : list string;
  requests : list Request
}.

(** Computations that read and change the world and may raise. *)
Definition M (A : Type) : Type := World -> result A * World.

Definition ret {A} (a : A) : M A := fun w => (Return a, w).
Definition raise {A} (e : exc) : M A := fun w => (Raise e, w).
Definition bindM {A B} (m : M A) (k : A -> M B) : M B :=
  fun w =>
    match m w with
    | (Return a, w') => k a w'
    | (Raise e, w') => (Raise e, w')
    end.
Definition lift {A} (r : result A) : M A := fun w => (r, w).

#[global] Instance M_ret : MRet M := @ret.
#[global] Instance M_bind : MBind M := fun A B k m => bindM m k.

(** [print(line)] *)
Definition print (line : string) : M unit :=
  fun w => (Return tt, mkWorld (files w) (stdout w ++ [line]) (requests w)).

(** What opening a missing file raises. *)
Definition file_not_found (path : string) : exc :=
  mkExc FileNotFoundError
    ("[Errno 2] No such file or directory: " +:+ PyStr.repr path).

(** [path.open(newline="")] and reading the whole file. *)
Definition read_file (path : string) : M string :=
  fun w =>
    match files w !! path with
    | Some text => (Return text, w)
    | None => (Raise (file_not_found path), w)
    end.

(** [path.open("w", newline="")]: the file is created or emptied.  Within
    the model a path can always be written and a text always be encoded
    (utf-8 encodes every code point below 256), so opening and writing
    return.  A file system that refuses the path or the data, and a text
    that utf-8 cannot encode, are outside the model: what is stated below
    of [write_results] is stated of a writing that returns, and nothing
    is concluded from a run in which it raises. *)
Definition open_write (path : string) : M unit :=
  fun w => (Return tt,
            mkWorld (<[path := EmptyString]> (files w)) (stdout w) (requests w)).

(** Writing [text] at the end of the open file. *)
Definition write (path text : string) : M unit :=
  fun w => (Return tt,
            mkWorld (<[path := default EmptyString (files w !! path) +:+ text]> (files w))
                    (stdout w) (requests w)).

(** [for x in xs: body x] *)
Fixpoint for_each {A} (xs : list A) (body : A -> M unit) : M unit :=
  match xs with
  | [] => ret tt
  | x :: rest => body x ;; for_each rest body
  end.

(** The loop of [read_urls] over the rows of the reader; [urls] is the
    list built so far. *)
Fixpoint read_urls_loop (urls : list string) (rows : list (list string))
    : list string :=
  match rows with
  | [] => urls
  | row :: rest =>
      match row with
      | [] => read_urls_loop urls rest
      | first :: _ =>
          let url := PyStr.strip first in
          if PyStr.lower url =? "url" then read_urls_loop urls rest
          else if PyStr.truthy url then read_urls_loop (urls ++ [url]) rest
          else read_urls_loop urls rest
      end
  end.

(** [read_urls] *)
Definition read_urls (input_path : string) : M (list string) :=
  text ← read_file input_path;
  rows ← lift (Csv.reader text);
  ret (read_urls_loop [] rows).

(** The classes [fetch_html] catches: [except (HTTPError, URLError,
    ValueError)]. *)
Definition caught_by_fetch (e : exc) : bool :=
  issubclass (exc_type e) HTTPError
  || issubclass (exc_type e) URLError
  || issubclass (exc_type e) ValueError.

(** [urlopen(request, timeout=timeout)] with the body of the [with]. *)
Definition urlopen (env : Env) (request : Request) (timeout : Z) : M string :=
  fun w =>
    (open_and_read env (requests w) request timeout,
     mkWorld (files w) (stdout w) (requests w ++ [request])).

(** [fetch_html]: the request is built before the [try]. *)
Definition fetch_html (env : Env) (url : string) (timeout : Z)
    (user_agent : string) : M (option string) :=
  match Request_check env url with
  | Some e => raise e
  | None =>
      let request := mkRequest url [("User-Agent", user_agent)] in
      fun w =>
        match urlopen env request timeout w with
        | (Return text, w') => (Return (Some text), w')
        | (Raise e, w') =>
            if caught_by_fetch e then (Return None, w') else (Raise e, w')
        end
  end.

(** [extract_meta_description]: an exception of [feed] is not handled. *)
Definition extract_meta_description (env : Env) (html : string)
    : result string :=
  let parser := Html.feed_tags Html.new_parser (fst (starttags env html)) in
  match snd (starttags env html) with
  | Some e => Raise e
  | None => Return (PyStr.or_else (Html.meta_description parser) "")
  end.

Definition header : list string := ["URL"; "Meta Description"].

(** [write_results] *)
Definition write_results (output_path : string)
    (results : list MetaDescriptionResult) : M unit :=
  open_write output_path ;;
  write output_path (Csv.writerow header) ;;
  for_each results (fun result =>
    write output_path (Csv.writerow [url result; description result])).

(** The loop of [process_urls]; [results] is the list built so far. *)
Fixpoint fetch_all (env : Env) (timeout : Z) (user_agent : string)
    (urls : list string) (results : list MetaDescriptionResult)
    : M (list MetaDescriptionResult) :=
  match urls with
  | [] => ret results
  | u :: rest =>
      print ("Fetching " +:+ u +:+ " ...") ;;
      html ← fetch_html env u timeout user_agent;
      description ←
        match html with
        | Some text => lift (extract_meta_description env text)
        | None => ret EmptyString
        end;
      fetch_all env timeout user_agent rest (results ++ [mkResult u description])
  end.

Definition no_urls : exc := mkExc ValueError "The input CSV contains no URLs.".

(** [process_urls] *)
Definition process_urls (env : Env) (input_path output_path : string)
    (timeout : Z) (user_agent : string) : M unit :=
  urls ← read_urls input_path;
  match urls with
  | [] => raise no_urls
  | _ =>
      results ← fetch_all env timeout user_agent urls [];
      write_results output_path results
  end.

(** The parsed command line. *)
Record Args := mkArgs {
  input : string; output : string; arg_timeout : Z; user_agent : string
}.

Definition default_args : Args :=
  mkArgs DEFAULT_INPUT DEFAULT_OUTPUT DEFAULT_TIMEOUT DEFAULT_USER_AGENT.

(** How the process ends: it returns from [main], or [sys.exit(message)]
    prints the message on the standard error. *)
Inductive Exit :=
| Finished
| SystemExit (message : string)
| Uncaught (e : exc).

(** The exit status of the process. *)
Definition status (x : Exit) : Z :=
  match x with
  | Finished => 0
  | SystemExit _ => 1
  | Uncaught _ => 1
  end.

(** [main], after [parse_arguments]. *)
Definition main (env : Env) (args : Args) (w : World) : Exit * World :=
  match files w !! input args with
  | None =>
      (SystemExit ("Input file '" +:+ input args +:+
                   "' not found. Please add it to the repository root."), w)
  | Some _ =>
      match process_urls env (input args) (output args)
              (arg_timeout args) (user_agent args) w with
      | (Return _, w') => (Finished, w')
      | (Raise e, w') =>
          if issubclass (exc_type e) Exception
          then (SystemExit (exc_str e), w')
          else (Uncaught e, w')
      end
  end.

(** *** The URL list as the specification words it *)

(** The trimmed first field of every non-empty row, without the empty ones
    and without those that read "url" up to case. *)
Definition urls_of_rows (rows : list (list string)) : list string :=
  filter (fun u => u <> EmptyString /\ ~ PyStr.ci_eq u "url")
    (map (fun row => PyStr.strip (hd EmptyString row))
       (filter (fun row => row <> []) rows)).

(** The rows of the output file: the header, then a row per record. *)
Definition rows_of_results (results : list MetaDescriptionResult)
    : list (list string) :=
  header :: map (fun r => [url r; description r]) results.

End App.

(** ** Concrete surroundings, for running the program on examples *)

Module Examples.
Import Py App.

(** Two pages and the start tags the scanner reports for them. *)
Definition page_og_then_name : string :=
  "<html><meta charset='utf-8'><meta property='og:description' content='OG text'><meta name='description' content='Hello world'>".

Definition og_then_name : list Html.starttag :=
  [ ("html", []); ("meta", [("charset", Some "utf-8")]);
    ("meta", [("property", Some "og:description"); ("content", Some "OG text")]);
    ("meta", [("name", Some "description"); ("content", Some "Hello world")]) ].

Definition page_blank_then_twitter : string :=
  "<META NAME='Description' CONTENT='   '><meta property='twitter:description' content='later'>".

Definition blank_then_twitter : list Html.starttag :=
  [ ("meta", [("name", Some "Description"); ("content", Some "   ")]);
    ("meta", [("property", Some "twitter:description"); ("content", Some "later")]) ].

(** Pages with a marked section of an unknown keyword, at which the
    scanner raises after the tags before it were reported. *)
Definition unknown_keyword : exc :=
  mkExc AssertionError "unknown status keyword 'foo' in marked section".

Definition page_og_then_marked : string :=
  "<meta property='og:description' content='OG text'><![foo]>".

Definition page_name_then_marked : string :=
  "<meta name='description' content='x'><![foo]>".

Definition page_blank_then_marked : string :=
  "<meta name='description' content=' '><![foo]>".

Definition page_marked : string := "<p>text</p><![foo]>".

Definition scan (html : string) : list Html.starttag * option exc :=
  if html =? page_og_then_name then (og_then_name, None)
  else if html =? page_blank_then_twitter then (blank_then_twitter, None)
  else if html =? page_og_then_marked then
    ([("meta", [("property", Some "og:description"); ("content", Some "OG text")])],
     Some unknown_keyword)
  else if html =? page_name_then_marked then
    ([("meta", [("name", Some "description"); ("content", Some "x")])],
     Some unknown_keyword)
  else if html =? page_blank_then_marked then
    ([("meta", [("name", Some "description"); ("content", Some " ")])],
     Some unknown_keyword)
  else if html =? page_marked then ([("p", [])], Some unknown_keyword)
  else ([], None).

(** A network where one host answers and every other request fails in
    the connection. *)
Definition net (past : list Request) (req : Request) (timeout : Z)
    : result string :=
  if full_url req =? "https://example.org/" then Return page_og_then_name
  else Raise (mkExc URLError "<urlopen error [Errno -2] Name or service not known>").

Definition env : Env := mkEnv scan Urllib.Request_check net.

Definition world_with (text : string) : World :=
  mkWorld {[ DEFAULT_INPUT := text ]} [] [].

End Examples.

(** ** Words for stating what a run leaves behind *)

Module Trace.
Import Py App.

(** The request [fetch_html] sends for a URL. *)
Definition request_for (user_agent u : string) : Request :=
  mkRequest u [("User-Agent", user_agent)].

(** The line [process_urls] prints before it fetches a URL. *)
Definition fetch_line (u : string) : string := "Fetching " +:+ u +:+ " ...".

(** The description a URL gets when its fetch returns, the requests [past]
    having been sent before: what is extracted from the page, or the empty
    string when the fetch gave no page. *)
Definition description_at (env : Env) (timeout : Z) (user_agent : string)
    (past : list Request) (u : string) : result string :=
  match open_and_read env past (request_for user_agent u) timeout with
  | Return text => extract_meta_description env text
  | Raise _ => Return EmptyString
  end.

(** [extract_meta_description(html) if html is not None else ""] *)
Definition description_of_page (env : Env) (html : option string)
    : result string :=
  match html with
  | Some text => extract_meta_description env text
  | None => Return EmptyString
  end.

(** A URL as [read_urls] keeps it: trimmed, not empty, and not the header
    word. *)
Definition clean_url (u : string) : Prop :=
  PyStr.strip u = u /\ u <> EmptyString /\ ~ PyStr.ci_eq u "url".

(** The attribute list with every name in small letters. *)
Definition lower_names (attrs : list Html.attr) : list Html.attr :=
  map (fun a => (PyStr.lower (fst a), snd a)) attrs.

End Trace.

(** * Properties *)

(** ** Strings *)

Lemma lstrip_all_space s :
  forallb PyStr.isspace (list_ascii_of_string s) = true -> PyStr.lstrip s = "".
Proof.
  induction s as [|c r IH]; simpl; [done|].
  intros [Hc Hr]%andb_true_iff. rewrite Hc. auto.
Qed.

Lemma strip_all_space s :
  forallb PyStr.isspace (list_ascii_of_string s) = true -> PyStr.strip s = "".
Proof. intros H. unfold PyStr.strip. by rewrite lstrip_all_space. Qed.

(** ** The description extractor *)

Section HtmlFacts.
Import Html.

(** The dictionary the handler builds reads like the attribute list. *)
Lemma attributes_fold_lookup attrs (m : gmap string string) key :
  fold_left
    (fun (m : gmap string string) (a : attr) =>
       <[PyStr.lower (fst a) := PyStr.or_else (snd a) ""]> m) attrs m !! key
  = match attribute attrs key with
    | Some v => Some v
    | None => m !! key
    end.
Proof.
  revert m. induction attrs as [|a rest IH]; intros m; simpl; [done|].
  rewrite IH. destruct (attribute rest key) as [v|]; [done|].
  destruct (String.eqb_spec (PyStr.lower a.1) key) as [->|Hne].
  - by rewrite lookup_insert_eq.
  - by rewrite lookup_insert_ne.
Qed.

Lemma dict_get_attribute attrs key :
  dict_get (attributes_of attrs) key = default "" (attribute attrs key).
Proof.
  unfold dict_get, attributes_of. rewrite attributes_fold_lookup.
  by destruct (attribute attrs key).
Qed.

Lemma in_description_properties v :
  v ∈ description_properties <-> v = "og:description" \/ v = "twitter:description".
Proof. unfold description_properties. set_solver. Qed.

(** The handler on a parser that has recorded nothing yet. *)
Lemma handle_starttag_fresh tag attrs :
  handle_starttag new_parser tag attrs =
  if decide (matches (tag, attrs))
  then mkParser (Some (content_of (tag, attrs)))
  else new_parser.
Proof.
  unfold handle_starttag, content_of, matches, PyStr.ci_eq. simpl.
  rewrite !dict_get_attribute.
  destruct (String.eqb_spec (PyStr.lower tag) "meta") as [Hm|Hm]; simpl.
  - destruct (String.eqb_spec
                (PyStr.lower (default "" (attribute attrs "name"))) "description")
      as [Hn|Hn]; simpl.
    + rewrite decide_True; [done|]. split; [done|]. by left.
    + case_bool_decide as Hp.
      * rewrite decide_True; [done|]. split; [done|]. right.
        by apply in_description_properties.
      * rewrite decide_False; [done|]. intros [_ [H|H]]; [done|].
        apply Hp, in_description_properties, H.
  - rewrite decide_False; [done|]. by intros [H _].
Qed.

(** Once a value is recorded the handler returns at once. *)
Lemma handle_starttag_frozen d tag attrs :
  handle_starttag (mkParser (Some d)) tag attrs = mkParser (Some d).
Proof. done. Qed.

Lemma feed_tags_frozen d tags :
  feed_tags (mkParser (Some d)) tags = mkParser (Some d).
Proof. induction tags as [|t tags IH]; simpl; [done|]. apply IH. Qed.

Lemma feed_tags_no_match tags :
  Forall (fun t => ~ matches t) tags -> feed_tags new_parser tags = new_parser.
Proof.
  induction 1 as [|[tag attrs] tags Ht _ IH]; simpl; [done|].
  rewrite handle_starttag_fresh, decide_False by done. apply IH.
Qed.

Lemma feed_tags_app p tags1 tags2 :
  feed_tags p (tags1 ++ tags2) = feed_tags (feed_tags p tags1) tags2.
Proof. apply fold_left_app. Qed.

Lemma feed_tags_first_match pre t post :
  Forall (fun t => ~ matches t) pre -> matches t ->
  feed_tags new_parser (pre ++ t :: post) = mkParser (Some (content_of t)).
Proof.
  intros Hpre Ht. rewrite feed_tags_app, feed_tags_no_match by done.
  destruct t as [tag attrs]. simpl.
  rewrite handle_starttag_fresh, decide_True by done.
  apply feed_tags_frozen.
Qed.

Lemma or_else_same s : PyStr.or_else (Some s) "" = s.
Proof. by destruct s. Qed.

Lemma description_first_match pre t post :
  Forall (fun t => ~ matches t) pre -> matches t ->
  description_of_tags (pre ++ t :: post) = content_of t.
Proof.
  intros Hpre Ht. unfold description_of_tags.
  rewrite feed_tags_first_match by done. apply or_else_same.
Qed.

Lemma description_no_match tags :
  Forall (fun t => ~ matches t) tags -> description_of_tags tags = "".
Proof.
  intros H. unfold description_of_tags. by rewrite feed_tags_no_match.
Qed.

(** Every tag list either has a first matching tag or none at all. *)
Lemma first_match_split (tags : list starttag) :
  (exists pre t post, tags = pre ++ t :: post /\
      Forall (fun t => ~ matches t) pre /\ matches t)
  \/ Forall (fun t => ~ matches t) tags.
Proof.
  induction tags as [|t tags IH]; [by right|].
  destruct (decide (matches t)) as [Ht|Ht].
  - left. by exists [], t, tags.
  - destruct IH as [(pre & u & post & -> & Hpre & Hu)|Hnone].
    + left. exists (t :: pre), u, post.
      split; [done|]. split; [by constructor|done].
    + right. by constructor.
Qed.

End HtmlFacts.

(** [extract_meta_description] when the scanner finishes the page. *)
Lemma extract_scanned env html tags :
  App.starttags env html = (tags, None) ->
  App.extract_meta_description env html =
  Py.Return (Html.description_of_tags tags).
Proof. intros E. unfold App.extract_meta_description. by rewrite E. Qed.

(** [extract_meta_description] when the scanner raises. *)
Lemma extract_raised env html tags e :
  App.starttags env html = (tags, Some e) ->
  App.extract_meta_description env html = Py.Raise e.
Proof. intros E. unfold App.extract_meta_description. by rewrite E. Qed.

(** C3, amended.  For every page that the tag scanner reads to its end
    without raising, the extracted description is the trimmed [content]
    attribute (empty when absent) of a meta tag whose [name] is
    "description" or whose [property] is "og:description" or
    "twitter:description", up to case, namely of the first such tag; when
    no tag matches it is the empty string. *)
Theorem extract_meta_description_content (env : App.Env) (html : string)
    (tags : list Html.starttag) :
  App.starttags env html = (tags, None) ->
  (exists pre t post,
      tags = pre ++ t :: post /\
      Forall (fun p => ~ Html.matches p) pre /\
      Html.matches t /\
      App.extract_meta_description env html = Py.Return (Html.content_of t))
  \/ (Forall (fun p => ~ Html.matches p) tags /\
      App.extract_meta_description env html = Py.Return "").
Proof.
  intros E. rewrite (extract_scanned _ _ _ E).
  destruct (first_match_split tags)
    as [(pre & t & post & -> & Hpre & Ht)|Hnone].
  - left. exists pre, t, post. split; [done|]. split; [done|]. split; [done|].
    by rewrite description_first_match.
  - right. split; [done|]. by rewrite description_no_match.
Qed.

Lemma extract_meta_description_content_witness :
  (exists pre t post,
      Examples.og_then_name = pre ++ t :: post /\
      Forall (fun p => ~ Html.matches p) pre /\
      Html.matches t /\
      App.extract_meta_description Examples.env Examples.page_og_then_name =
        Py.Return (Html.content_of t))
  \/ (Forall (fun p => ~ Html.matches p) Examples.og_then_name /\
      App.extract_meta_description Examples.env Examples.page_og_then_name =
        Py.Return "").
Proof.
  apply (extract_meta_description_content Examples.env
           Examples.page_og_then_name Examples.og_then_name).
  reflexivity.
Defined.

(** C3 as stated fails: a page whose first tag is a matching meta tag
    with content "x", followed by a marked section at which the scanner
    raises; the exception leaves [extract_meta_description] and no
    description is returned. *)
Lemma extract_raises_despite_match :
  let t : Html.starttag :=
    ("meta", [("name", Some "description"); ("content", Some "x")]) in
  App.starttags Examples.env Examples.page_name_then_marked =
    ([t], Some Examples.unknown_keyword)
  /\ Html.matches t
  /\ Html.content_of t = "x"
  /\ App.extract_meta_description Examples.env Examples.page_name_then_marked =
     Py.Raise Examples.unknown_keyword
  /\ App.extract_meta_description Examples.env Examples.page_name_then_marked <>
     Py.Return "x".
Proof.
  split; [reflexivity|]. split.
  { vm_compute. split; [reflexivity|]. left. reflexivity. }
  split; [reflexivity|]. split; [reflexivity|]. discriminate.
Qed.

(** C2, amended.  When the scanner reads the page to its end without
    raising and the page has matching meta tags, only the first of them in
    document order is used: whatever tags follow it, the description is
    its trimmed content.  In particular a tag with property
    "og:description" and content "OG text" that no matching tag precedes
    gives "OG text", the later tags being ignored. *)
Theorem first_matching_tag_wins (env : App.Env) (html : string)
    (pre : list Html.starttag) (t : Html.starttag) (post : list Html.starttag) :
  App.starttags env html = (pre ++ t :: post, None) ->
  Forall (fun p => ~ Html.matches p) pre ->
  Html.matches t ->
  App.extract_meta_description env html = Py.Return (Html.content_of t)
  /\ (forall others, Html.description_of_tags (pre ++ t :: others) = Html.content_of t)
  /\ (PyStr.ci_eq (default "" (Html.attribute (snd t) "property")) "og:description" ->
      Html.attribute (snd t) "content" = Some "OG text" ->
      App.extract_meta_description env html = Py.Return "OG text").
Proof.
  intros E Hpre Ht.
  assert (Hall : forall others,
             Html.description_of_tags (pre ++ t :: others) = Html.content_of t)
    by (intros; by apply description_first_match).
  assert (Hx : App.extract_meta_description env html =
               Py.Return (Html.content_of t)).
  { rewrite (extract_scanned _ _ _ E). by rewrite Hall. }
  split; [done|]. split; [done|].
  intros _ Hc. rewrite Hx. unfold Html.content_of. by rewrite Hc.
Qed.

Lemma first_matching_tag_wins_witness :
  App.extract_meta_description Examples.env Examples.page_og_then_name =
  Py.Return "OG text".
Proof.
  refine (proj2 (proj2 (first_matching_tag_wins Examples.env
            Examples.page_og_then_name
            [("html", []); ("meta", [("charset", Some "utf-8")])]
            ("meta", [("property", Some "og:description"); ("content", Some "OG text")])
            [("meta", [("name", Some "description"); ("content", Some "Hello world")])]
            _ _ _)) _ _).
  - reflexivity.
  - apply Forall_cons_2; [|apply Forall_cons_2; [|apply Forall_nil_2]];
      vm_compute; intros [H1 H2];
      first [discriminate H1 | destruct H2 as [H|[H|H]]; discriminate H].
  - vm_compute. split; [reflexivity|]. right. left. reflexivity.
  - reflexivity.
  - reflexivity.
Defined.

(** C2 as stated fails: a page whose first tag is the meta tag with
    property "og:description" and content "OG text", no tag with name
    "description" before it, followed by a marked section at which the
    scanner raises; extraction does not yield "OG text", it raises. *)
Lemma og_text_lost_when_scanner_raises :
  let t : Html.starttag :=
    ("meta", [("property", Some "og:description"); ("content", Some "OG text")]) in
  App.starttags Examples.env Examples.page_og_then_marked =
    ([] ++ [t], Some Examples.unknown_keyword)
  /\ Html.matches t
  /\ Html.attribute (snd t) "content" = Some "OG text"
  /\ App.extract_meta_description Examples.env Examples.page_og_then_marked =
     Py.Raise Examples.unknown_keyword
  /\ App.extract_meta_description Examples.env Examples.page_og_then_marked <>
     Py.Return "OG text".
Proof.
  split; [reflexivity|]. split.
  { vm_compute. split; [reflexivity|]. right. left. reflexivity. }
  split; [reflexivity|]. split; [reflexivity|]. discriminate.
Qed.

(** C9, amended.  [extract_meta_description] returns a string, the content
    of the first matching tag or the empty string, for every input that
    the tag scanner reads to its end without raising; when the scanner
    raises, the exception leaves [extract_meta_description] unhandled,
    whatever tags were reported before. *)
Theorem extract_meta_description_outcome (env : App.Env) (html : string) :
  App.extract_meta_description env html =
  match snd (App.starttags env html) with
  | Some e => Py.Raise e
  | None =>
      Py.Return
        match list_find Html.matches (fst (App.starttags env html)) with
        | Some (_, t) => Html.content_of t
        | None => ""
        end
  end.
Proof.
  unfold App.extract_meta_description.
  destruct (App.starttags env html) as [tags [e|]]; simpl; [done|].
  f_equal. fold (Html.description_of_tags tags).
  destruct (list_find Html.matches tags) as [[i t]|] eqn:E.
  - apply list_find_Some in E as (Hi & Ht & Hbefore).
    apply list_elem_of_split_length in Hi as (pre & post & -> & ->).
    apply description_first_match; [|done].
    apply Forall_lookup. intros j p Hj.
    apply (Hbefore j p).
    + by rewrite lookup_app_l by (by eapply lookup_lt_Some).
    + by eapply lookup_lt_Some.
  - apply list_find_None in E. by apply description_no_match.
Qed.

(** C9 as stated fails: on a page with a marked section of an unknown
    keyword the scanner raises, and so does [extract_meta_description]:
    it returns no string. *)
Lemma extract_meta_description_raises :
  App.extract_meta_description Examples.env Examples.page_marked =
    Py.Raise Examples.unknown_keyword
  /\ ~ exists d,
         App.extract_meta_description Examples.env Examples.page_marked =
         Py.Return d.
Proof. split; [reflexivity|]. intros [d H]. discriminate H. Qed.

(** C10, amended.  When the first matching tag has no [content] attribute,
    or one made of white space only, the recorded value is the empty
    string and stays frozen: no later tag, matching or not, with content
    or not, changes it; and when the scanner reads the page to its end
    without raising, the description is the empty string. *)
Theorem blank_first_match_freezes (env : App.Env) (html : string)
    (pre : list Html.starttag) (t : Html.starttag) (post : list Html.starttag) :
  App.starttags env html = (pre ++ t :: post, None) ->
  Forall (fun p => ~ Html.matches p) pre ->
  Html.matches t ->
  (Html.attribute (snd t) "content" = None \/
   exists v, Html.attribute (snd t) "content" = Some v /\
             forallb PyStr.isspace (list_ascii_of_string v) = true) ->
  App.extract_meta_description env html = Py.Return ""
  /\ forall later,
       Html.feed_tags Html.new_parser (pre ++ t :: later) = Html.mkParser (Some "").
Proof.
  intros E Hpre Ht Hblank.
  assert (Hc : Html.content_of t = "").
  { unfold Html.content_of. destruct Hblank as [->|(v & -> & Hv)]; [done|].
    by apply strip_all_space. }
  split.
  - rewrite (extract_scanned _ _ _ E). by rewrite description_first_match, Hc.
  - intros later. by rewrite feed_tags_first_match, Hc.
Qed.

Lemma blank_first_match_freezes_witness :
  App.extract_meta_description Examples.env Examples.page_blank_then_twitter =
  Py.Return "".
Proof.
  refine (proj1 (blank_first_match_freezes Examples.env
            Examples.page_blank_then_twitter []
            ("meta", [("name", Some "Description"); ("content", Some "   ")])
            [("meta", [("property", Some "twitter:description"); ("content", Some "later")])]
            _ _ _ _)).
  - reflexivity.
  - constructor.
  - vm_compute. split; [reflexivity|]. left. reflexivity.
  - right. exists "   ". split; reflexivity.
Defined.

(** C10 as stated fails: a page whose first matching tag has a content of
    white space only, followed by a marked section at which the scanner
    raises; the empty string was recorded, yet extraction does not return
    it, it raises. *)
Lemma blank_match_lost_when_scanner_raises :
  let t : Html.starttag :=
    ("meta", [("name", Some "description"); ("content", Some " ")]) in
  App.starttags Examples.env Examples.page_blank_then_marked =
    ([t], Some Examples.unknown_keyword)
  /\ Html.matches t
  /\ Html.feed_tags Html.new_parser [t] = Html.mkParser (Some "")
  /\ App.extract_meta_description Examples.env Examples.page_blank_then_marked =
     Py.Raise Examples.unknown_keyword
  /\ App.extract_meta_description Examples.env Examples.page_blank_then_marked <>
     Py.Return "".
Proof.
  split; [reflexivity|]. split.
  { vm_compute. split; [reflexivity|]. left. reflexivity. }
  split; [reflexivity|]. split; [reflexivity|]. discriminate.
Qed.

(** ** Appending strings *)

Lemma append_cons c s t : String c s +:+ t = String c (s +:+ t).
Proof. reflexivity. Qed.

Lemma append_nil_l t : "" +:+ t = t.
Proof. reflexivity. Qed.

Lemma append_nil_r s : s +:+ "" = s.
Proof. induction s as [|c s IH]; [done|]. by rewrite append_cons, IH. Qed.

Lemma append_assoc s t u : (s +:+ t) +:+ u = s +:+ (t +:+ u).
Proof. induction s as [|c s IH]; [done|]. by rewrite !append_cons, IH. Qed.

(** ** The URL reader *)

Section ReaderFacts.
Import Py App.

Lemma read_urls_loop_spec rows urls :
  read_urls_loop urls rows = urls ++ urls_of_rows rows.
Proof.
  unfold urls_of_rows. revert urls.
  induction rows as [|row rows IH]; intros urls; simpl.
  { by rewrite app_nil_r. }
  destruct row as [|first rest]; simpl.
  { apply IH. }
  destruct (String.eqb_spec (PyStr.lower (PyStr.strip first)) "url") as [Hu|Hu].
  { rewrite filter_cons_False; [apply IH|]. intros [_ H]. by apply H. }
  destruct (PyStr.strip first) as [|c u] eqn:E; simpl.
  { rewrite filter_cons_False; [apply IH|]. intros [H _]. by apply H. }
  rewrite filter_cons_True by done.
  rewrite IH. by rewrite <- app_assoc.
Qed.


Lemma read_urls_unfold input_path w :
  read_urls input_path w =
  (match files w !! input_path with
   | None => Raise (file_not_found input_path)
   | Some text =>
       Py.bind (Csv.reader text) (fun rows => Return (urls_of_rows rows))
   end, w).
Proof.
  unfold read_urls, mbind, M_bind, bindM, read_file, lift.
  destruct (files w !! input_path) as [text|]; [|done].
  destruct (Csv.reader text) as [rows|e]; simpl; [|done].
  unfold ret. by rewrite read_urls_loop_spec.
Qed.

Lemma read_urls_world input_path w r w' :
  read_urls input_path w = (r, w') -> w' = w.
Proof. rewrite read_urls_unfold. by intros [= _ <-]. Qed.

End ReaderFacts.

(** ** Orchestration *)

Section AppFacts.
Import Py App.

Lemma fetch_html_request_error env u timeout ua w e :
  Request_check env u = Some e ->
  fetch_html env u timeout ua w = (Raise e, w).
Proof. intros H. unfold fetch_html. by rewrite H. Qed.

Lemma fetch_html_request_ok env u timeout ua w :
  Request_check env u = None ->
  let request := mkRequest u [("User-Agent", ua)] in
  fetch_html env u timeout ua w =
  (match open_and_read env (requests w) request timeout with
   | Return text => Return (Some text)
   | Raise e => if caught_by_fetch e then Return None else Raise e
   end,
   mkWorld (files w) (stdout w) (requests w ++ [request])).
Proof.
  intros H request. unfold fetch_html. rewrite H. unfold urlopen. fold request.
  destruct (open_and_read env (requests w) request timeout) as [text|e]; [done|].
  by destruct (caught_by_fetch e).
Qed.

Lemma fetch_all_cons env timeout ua u rest acc w :
  fetch_all env timeout ua (u :: rest) acc w =
  match fetch_html env u timeout ua
          (mkWorld (files w) (stdout w ++ [Trace.fetch_line u]) (requests w)) with
  | (Return html, w2) =>
      match Trace.description_of_page env html with
      | Return d => fetch_all env timeout ua rest (acc ++ [mkResult u d]) w2
      | Raise e => (Raise e, w2)
      end
  | (Raise e, w2) => (Raise e, w2)
  end.
Proof.
  simpl. unfold mbind, M_bind, bindM, print. simpl.
  fold (Trace.fetch_line u).
  destruct (fetch_html env u timeout ua _) as [[[text|]|e] w2]; simpl; try done.
Qed.

(** One fetch that returns: the request is logged, nothing else changes,
    and what the page gives is what [description_at] names. *)
Lemma fetch_html_returns env u timeout ua w html w2 :
  fetch_html env u timeout ua w = (Return html, w2) ->
  w2 = mkWorld (files w) (stdout w) (requests w ++ [Trace.request_for ua u]) /\
  Trace.description_of_page env html =
  Trace.description_at env timeout ua (requests w) u.
Proof.
  unfold Trace.description_at, Trace.description_of_page.
  destruct (Request_check env u) as [e|] eqn:Hc.
  { rewrite (fetch_html_request_error env u timeout ua _ e Hc). by intros [=]. }
  rewrite fetch_html_request_ok by done. simpl. fold (Trace.request_for ua u).
  destruct (open_and_read env (requests w) (Trace.request_for ua u) timeout)
    as [text|e].
  - by intros [= <- <-].
  - destruct (caught_by_fetch e); [by intros [= <- <-]|by intros [=]].
Qed.

(** One fetch that raises: either the request was rejected and nothing was
    sent, or it was sent and raised what [fetch_html] does not catch. *)
Lemma fetch_html_raises env u timeout ua w e w2 :
  fetch_html env u timeout ua w = (Raise e, w2) ->
  (Request_check env u = Some e /\ w2 = w) \/
  (Request_check env u = None /\
   open_and_read env (requests w) (Trace.request_for ua u) timeout = Raise e /\
   caught_by_fetch e = false /\
   w2 = mkWorld (files w) (stdout w) (requests w ++ [Trace.request_for ua u])).
Proof.
  destruct (Request_check env u) as [e'|] eqn:Hc.
  { rewrite (fetch_html_request_error env u timeout ua _ e' Hc).
    intros [= <- <-]. by left. }
  rewrite fetch_html_request_ok by done. simpl. fold (Trace.request_for ua u).
  destruct (open_and_read env (requests w) (Trace.request_for ua u) timeout)
    as [text|e'] eqn:E; [by intros [=]|].
  destruct (caught_by_fetch e') eqn:Ec; [by intros [=]|].
  intros [= <- <-]. by right.
Qed.

Lemma fetch_html_files env u timeout ua w r w2 :
  fetch_html env u timeout ua w = (r, w2) -> files w2 = files w.
Proof.
  destruct r as [html|e]; intros H.
  - by apply fetch_html_returns in H as [-> _].
  - by apply fetch_html_raises in H as [[_ ->]|(_ & _ & _ & ->)].
Qed.

(** The loop of [process_urls] touches no file. *)
Lemma fetch_all_files env timeout ua urls acc w r w' :
  fetch_all env timeout ua urls acc w = (r, w') -> files w' = files w.
Proof.
  revert acc w. induction urls as [|u urls IH]; intros acc w.
  { simpl. by intros [= _ <-]. }
  rewrite fetch_all_cons.
  destruct (fetch_html env u timeout ua _) as [[html|e] w2] eqn:Hf;
    apply fetch_html_files in Hf; simpl in Hf.
  - destruct (Trace.description_of_page env html) as [d|e].
    + intros H. apply IH in H. by rewrite H.
    + intros [= _ <-]. done.
  - intros [= _ <-]. done.
Qed.

(** When the loop returns, it returns one record per URL, in order. *)
Lemma fetch_all_urls env timeout ua urls acc w results w' :
  fetch_all env timeout ua urls acc w = (Return results, w') ->
  map url results = map url acc ++ urls.
Proof.
  revert acc w. induction urls as [|u urls IH]; intros acc w.
  { simpl. intros [= <- _]. by rewrite app_nil_r. }
  rewrite fetch_all_cons.
  destruct (fetch_html env u timeout ua _) as [[html|e] w2]; [|by intros [=]].
  destruct (Trace.description_of_page env html) as [d|e]; [|by intros [=]].
  intros H. apply IH in H. rewrite H, map_app. simpl. by rewrite <- app_assoc.
Qed.

(** When no request is rejected, the network raises nothing but what
    [fetch_html] catches and the scanner raises on no page, the loop
    returns, with one record per URL. *)
Lemma fetch_all_returns env timeout ua urls acc w :
  Forall (fun u => Request_check env u = None) urls ->
  (forall past req t e,
      open_and_read env past req t = Raise e -> caught_by_fetch e = true) ->
  (forall html, snd (starttags env html) = None) ->
  exists results w',
    fetch_all env timeout ua urls acc w = (Return results, w') /\
    map url results = map url acc ++ urls.
Proof.
  intros Hreq Hnet Hscan. revert acc w.
  induction Hreq as [|u urls Hu _ IH]; intros acc w.
  { exists acc, w. by rewrite app_nil_r. }
  assert (Hstep : forall d w1, exists results w',
             fetch_all env timeout ua urls (acc ++ [mkResult u d]) w1
             = (Return results, w') /\
             map url results = map url acc ++ u :: urls).
  { intros d w1. destruct (IH (acc ++ [mkResult u d]) w1) as (rs & w' & E & Hm).
    exists rs, w'. split; [done|]. rewrite Hm, map_app. simpl.
    by rewrite <- app_assoc. }
  rewrite fetch_all_cons, fetch_html_request_ok by done. simpl.
  destruct (open_and_read _ _ _ _) as [text|e] eqn:E.
  - simpl. unfold extract_meta_description. rewrite Hscan. apply Hstep.
  - rewrite (Hnet _ _ _ _ E). simpl. apply Hstep.
Qed.

Lemma write_rows_files {A} (f : A -> string) path F so rq xs acc :
  for_each xs (fun x => write path (f x)) (mkWorld (<[path := acc]> F) so rq) =
  (Return tt, mkWorld (<[path := acc +:+ PyStr.join (map f xs)]> F) so rq).
Proof.
  revert acc. induction xs as [|x xs IH]; intros acc; simpl.
  { by rewrite append_nil_r. }
  unfold mbind, M_bind, bindM, write. simpl.
  rewrite lookup_insert_eq, insert_insert_eq. simpl.
  by rewrite IH, append_assoc.
Qed.

Lemma write_results_files path results w :
  write_results path results w =
  (Return tt,
   mkWorld (<[path := Csv.text_of_rows (rows_of_results results)]> (files w))
           (stdout w) (requests w)).
Proof.
  unfold write_results, mbind, M_bind, bindM, open_write.
  unfold write at 1. simpl.
  rewrite lookup_insert_eq, insert_insert_eq. simpl.
  rewrite (write_rows_files (fun r => Csv.writerow [url r; description r])).
  unfold Csv.text_of_rows, rows_of_results. simpl.
  by rewrite map_map.
Qed.

End AppFacts.

(** ** The csv writer *)

Section WriterFacts.
Import Py Csv.

Lemma special_false c :
  special c = false ->
  Ascii.eqb c delimiter = false /\ Ascii.eqb c quotechar = false /\
  Ascii.eqb c CR = false /\ Ascii.eqb c LF = false.
Proof.
  unfold special, is_newline.
  destruct (Ascii.eqb c delimiter), (Ascii.eqb c quotechar),
    (Ascii.eqb c CR), (Ascii.eqb c LF); simpl; intros H;
    try discriminate H; done.
Qed.

Lemma copy_data_plain f : needs_quotes f = false -> copy_data f = f.
Proof.
  induction f as [|c f IH]; simpl; [done|].
  intros [Hc Hf]%orb_false_iff.
  apply special_false in Hc as (_ & -> & _). by rewrite IH.
Qed.

Lemma quote_field_standard f :
  quote_field (needs_quotes f) (copy_data f) = standard_quoting f.
Proof.
  unfold quote_field, standard_quoting.
  destruct (needs_quotes f) eqn:E; [done|]. by apply copy_data_plain.
Qed.

Lemma standard_quoting_empty f : standard_quoting f = "" -> f = "".
Proof. unfold standard_quoting. by destruct (needs_quotes f). Qed.

Lemma append_empty s t : s +:+ t = "" -> s = "" /\ t = "".
Proof. destruct s; [done|]. by rewrite append_cons. Qed.

Lemma fold_join_append flds r n :
  fold_left (fun w f => join_append w f false) flds (mkWriter r (S n)) =
  mkWriter (r +:+ sep_fields flds) (S n + length flds).
Proof.
  revert r n. induction flds as [|f flds IH]; intros r n; simpl.
  { rewrite append_nil_r. f_equal. lia. }
  unfold join_append at 2. simpl. rewrite quote_field_standard, IH.
  f_equal; [|lia].
  by rewrite append_assoc, append_cons, append_nil_l.
Qed.

Lemma join_append_first f :
  join_append (mkWriter "" 0) f false = mkWriter (standard_quoting f) 1.
Proof. unfold join_append. simpl. by rewrite quote_field_standard. Qed.

Lemma writerow_row_text flds : writerow flds = row_text flds.
Proof.
  destruct flds as [|f rest]; [done|].
  unfold writerow. simpl. rewrite join_append_first, fold_join_append. simpl.
  destruct (standard_quoting f +:+ sep_fields rest) as [|a s] eqn:E.
  - apply append_empty in E as [Hf Hr].
    apply standard_quoting_empty in Hf as ->.
    destruct rest as [|g rest]; [done|]. discriminate Hr.
  - simpl. rewrite <- E, append_assoc.
    destruct f as [|c f]; [|done]. destruct rest as [|g rest]; [|done].
    discriminate E.
Qed.

Lemma writerow_header :
  writerow App.header = "URL,Meta Description" +:+ lineterminator.
Proof. reflexivity. Qed.

Lemma writerow_pair a b :
  writerow [a; b] =
  standard_quoting a +:+ "," +:+ standard_quoting b +:+ lineterminator.
Proof.
  rewrite writerow_row_text. unfold row_text.
  assert (E : sep_fields [b] = "," +:+ standard_quoting b).
  { simpl. by rewrite append_nil_r. }
  destruct a as [|c a]; by rewrite E, ?append_assoc.
Qed.

End WriterFacts.

(** C8.  [write_results] leaves a file whose rows are the header
    [URL,Meta Description] and then one row per record in the order of the
    list, each row the record's URL and description, changed by nothing
    but standard CSV quoting. *)
Theorem write_results_rows (path : string)
    (results : list App.MetaDescriptionResult) (w : App.World) :
  App.write_results path results w =
    (Py.Return tt,
     App.mkWorld
       (<[path := Csv.text_of_rows
                    (App.header ::
                     map (fun r => [App.url r; App.description r]) results)]>
          (App.files w))
       (App.stdout w) (App.requests w))
  /\ Csv.writerow App.header = "URL,Meta Description" +:+ Csv.lineterminator
  /\ (forall r,
        Csv.writerow [App.url r; App.description r] =
        Csv.standard_quoting (App.url r) +:+ "," +:+
        Csv.standard_quoting (App.description r) +:+ Csv.lineterminator).
Proof.
  split; [apply write_results_files|]. split; [apply writerow_header|].
  intros r. apply writerow_pair.
Qed.

(** ** The csv reader, line by line and character by character *)

Section ReaderRun.
Import Py Csv.

Lemma bind_ret_r {A} (r : result A) : bind r Return = r.
Proof. by destruct r. Qed.

Lemma bind_ext {A B} (r : result A) (k k' : A -> result B) :
  (forall a, k a = k' a) -> bind r k = bind r k'.
Proof. intros H. destruct r; simpl; [apply H|done]. Qed.

Lemma end_line_ext self k k' :
  (forall s, k s = k' s) -> end_line self k = end_line self k'.
Proof.
  intros H. unfold end_line. apply bind_ext. intros s2.
  destruct (state s2); by rewrite ?H.
Qed.

Lemma process_line_app self a b :
  process_line self (a +:+ b) =
  bind (process_line self a) (fun s => process_line s b).
Proof.
  revert self. induction a as [|c a IH]; intros self; [done|].
  rewrite append_cons. simpl.
  destruct (parse_process_char self (Some c)) as [s|e]; simpl; [apply IH|done].
Qed.

Lemma process_line_snoc self0 cur self c :
  process_line self0 cur = Return self ->
  process_line self0 (cur +:+ String c "") = parse_process_char self (Some c).
Proof.
  intros H. rewrite process_line_app, H. simpl. apply bind_ret_r.
Qed.

Lemma process_line_raise self0 cur e suffix :
  process_line self0 cur = Raise e ->
  process_line self0 (cur +:+ suffix) = Raise e.
Proof. intros H. by rewrite process_line_app, H. Qed.

(** A line that has begun is the beginning of the first line to come. *)
Lemma readlines_from_prefix text cur :
  cur <> "" ->
  exists suffix more, readlines_from cur text = (cur +:+ suffix) :: more.
Proof.
  revert cur. induction text as [|c rest IH]; intros cur Hcur.
  { exists "", []. rewrite append_nil_r. by destruct cur. }
  simpl. destruct (Ascii.eqb c LF).
  { by exists (String c ""), (readlines_from "" rest). }
  destruct (Ascii.eqb c CR).
  { destruct rest as [|d rest'].
    - by exists (String c ""), (readlines_from "" "").
    - destruct (Ascii.eqb d LF).
      + exists (String c (String d "")), (readlines_from "" rest').
        by rewrite append_assoc.
      + by exists (String c ""), (readlines_from "" (String d rest')). }
  destruct (IH (cur +:+ String c "")) as (suffix & more & E).
  { by destruct cur. }
  exists (String c suffix), more. by rewrite E, append_assoc.
Qed.

Lemma lines_of_prefix pos text cur :
  cur <> "" ->
  exists suffix more, lines_of pos cur text = (cur +:+ suffix) :: more.
Proof.
  intros Hcur. destruct pos; simpl; try by apply readlines_from_prefix.
  destruct text as [|d rest].
  { exists "", []. by rewrite append_nil_r. }
  destruct (Ascii.eqb d LF).
  - by exists (String d ""), (readlines_from "" rest).
  - exists "", (readlines_from "" (String d rest)). by rewrite append_nil_r.
Qed.

Lemma reader_rows_raise self0 pos cur text e :
  cur <> "" ->
  process_line self0 cur = Raise e ->
  reader_rows self0 (lines_of pos cur text) = Raise e.
Proof.
  intros Hcur H.
  destruct (lines_of_prefix pos text cur Hcur) as (suffix & more & ->).
  simpl. by rewrite (process_line_raise _ _ e).
Qed.

Lemma reader_rows_line self0 line rest :
  reader_rows self0 (line :: rest) =
  bind (process_line self0 line)
       (fun s1 => end_line s1 (fun s => reader_rows s rest)).
Proof. reflexivity. Qed.

Lemma snoc_nonempty cur c : cur +:+ String c "" <> "".
Proof. by destruct cur. Qed.

Lemma readlines_from_lf cur c rest :
  Ascii.eqb c LF = true ->
  readlines_from cur (String c rest) =
  (cur +:+ String c "") :: lines_of AtStart "" rest.
Proof. intros H. simpl. by rewrite H. Qed.

Lemma readlines_from_cr cur c rest :
  Ascii.eqb c LF = false -> Ascii.eqb c CR = true ->
  readlines_from cur (String c rest) = lines_of AfterCR (cur +:+ String c "") rest.
Proof. intros H1 H2. simpl. rewrite H1, H2. by destruct rest. Qed.

Lemma readlines_from_other cur c rest :
  Ascii.eqb c LF = false -> Ascii.eqb c CR = false ->
  readlines_from cur (String c rest) = lines_of Inside (cur +:+ String c "") rest.
Proof. intros H1 H2. simpl. by rewrite H1, H2. Qed.

Lemma run_after_cr self c rest :
  run self AfterCR (String c rest) =
  if Ascii.eqb c LF then run self Inside (String c rest)
  else end_line self (fun s => run s Inside (String c rest)).
Proof. reflexivity. Qed.

(** The reader on the remaining lines is the character-wise run. *)
Lemma reader_rows_run text :
  forall self0 cur self pos,
    process_line self0 cur = Return self ->
    pos_ok pos cur ->
    reader_rows self0 (lines_of pos cur text) = run self pos text.
Proof.
  induction text as [|c rest IH]; intros self0 cur self pos Hcur Hpos.
  { destruct pos.
    - simpl in Hpos. subst cur. by injection Hcur as ->.
    - destruct cur as [|a cur]; [done|].
      change (lines_of Inside (String a cur) "") with [String a cur].
      by rewrite reader_rows_line, Hcur.
    - change (lines_of AfterCR cur "") with [cur].
      by rewrite reader_rows_line, Hcur. }
  (* the step every position shares *)
  assert (Hnormal : forall self0 cur self,
    process_line self0 cur = Return self ->
    reader_rows self0 (readlines_from cur (String c rest)) =
    run self Inside (String c rest)).
  { clear self0 cur self Hcur Hpos. intros self0 cur self Hcur.
    change (run self Inside (String c rest)) with
      (bind (parse_process_char self (Some c)) (fun s1 =>
         if Ascii.eqb c LF then end_line s1 (fun s2 => run s2 AtStart rest)
         else if Ascii.eqb c CR then run s1 AfterCR rest
         else run s1 Inside rest)).
    pose proof (process_line_snoc _ _ _ c Hcur) as Hsnoc.
    destruct (Ascii.eqb c LF) eqn:ELF.
    { rewrite (readlines_from_lf _ _ _ ELF), reader_rows_line, Hsnoc.
      apply bind_ext. intros s1.
      apply end_line_ext. intros s2. by apply (IH s2 "" s2 AtStart). }
    destruct (Ascii.eqb c CR) eqn:ECR.
    { rewrite (readlines_from_cr _ _ _ ELF ECR).
      destruct (parse_process_char self (Some c)) as [s1|e].
      - apply (IH _ (cur +:+ String c "") _ AfterCR); [done|apply snoc_nonempty].
      - apply reader_rows_raise; [apply snoc_nonempty|done]. }
    rewrite (readlines_from_other _ _ _ ELF ECR).
    destruct (parse_process_char self (Some c)) as [s1|e].
    - apply (IH _ (cur +:+ String c "") _ Inside); [done|apply snoc_nonempty].
    - apply reader_rows_raise; [apply snoc_nonempty|done]. }
  destruct pos.
  - apply (Hnormal _ _ _ Hcur).
  - apply (Hnormal _ _ _ Hcur).
  - rewrite run_after_cr. unfold lines_of. destruct (Ascii.eqb c LF) eqn:ELF.
    + rewrite <- (readlines_from_lf _ _ _ ELF). apply (Hnormal _ _ _ Hcur).
    + rewrite reader_rows_line, Hcur. simpl bind.
      apply end_line_ext. intros s. by apply (Hnormal s "" s).
Qed.

Lemma reader_run text : reader text = run parse_reset AtStart text.
Proof. unfold reader, readlines. by apply (reader_rows_run text _ "" _ AtStart). Qed.

End ReaderRun.

(** ** Reading back what the writer wrote *)

Section RoundTrip.
Import Py Csv.

Lemma length_append s t :
  String.length (s +:+ t) = String.length s + String.length t.
Proof. induction s as [|c s IH]; [done|]. rewrite append_cons. simpl. by rewrite IH. Qed.

Lemma room buf c f :
  within_limit (buf +:+ String c f) ->
  (N.of_nat (String.length buf) < field_limit)%N.
Proof. unfold within_limit. rewrite length_append. simpl. lia. Qed.

Lemma within_limit_snoc buf c f :
  within_limit (buf +:+ String c f) -> within_limit ((buf +:+ String c "") +:+ f).
Proof. by rewrite append_assoc. Qed.

Lemma parse_add_char_ok self c :
  (N.of_nat (String.length (field self)) < field_limit)%N ->
  parse_add_char self c =
  Return (mkReader (fields self) (state self) (field self +:+ String c "")).
Proof.
  intros H. unfold parse_add_char.
  destruct (N.leb_spec field_limit (N.of_nat (String.length (field self))));
    [lia|done].
Qed.

Lemma parse_add_char_full self c :
  (field_limit <= N.of_nat (String.length (field self)))%N ->
  parse_add_char self c = Raise field_larger_than_limit.
Proof.
  intros H. unfold parse_add_char.
  destruct (N.leb_spec field_limit (N.of_nat (String.length (field self))));
    [done|lia].
Qed.

Lemma newline_false c :
  is_newline c = false -> Ascii.eqb c CR = false /\ Ascii.eqb c LF = false.
Proof. unfold is_newline. by intros [? ?]%orb_false_iff. Qed.

Lemma run_at_start self a d r :
  run self AtStart (a +:+ String d r) = run self Inside (a +:+ String d r).
Proof. by destruct a. Qed.

Lemma run_inside self c rest :
  run self Inside (String c rest) =
  bind (parse_process_char self (Some c)) (fun s1 =>
    if Ascii.eqb c LF then end_line s1 (fun s2 => run s2 AtStart rest)
    else if Ascii.eqb c CR then run s1 AfterCR rest
    else run s1 Inside rest).
Proof. reflexivity. Qed.

(** One character that is no line end, inside a line. *)
Lemma run_step self s1 c rest :
  parse_process_char self (Some c) = Return s1 ->
  is_newline c = false ->
  run self Inside (String c rest) = run s1 Inside rest.
Proof.
  intros H [ECR ELF]%newline_false.
  rewrite run_inside, H. simpl. by rewrite ELF, ECR.
Qed.

Lemma run_raise self e c rest :
  parse_process_char self (Some c) = Raise e ->
  run self Inside (String c rest) = Raise e.
Proof. intros H. by rewrite run_inside, H. Qed.

(** Inside quotes every character but the quote is kept, line ends too,
    as long as the field has room. *)
Lemma run_in_quoted flds buf pos c rest :
  (N.of_nat (String.length buf) < field_limit)%N ->
  run (mkReader flds IN_QUOTED_FIELD buf) pos (String c rest) =
  if Ascii.eqb c quotechar
  then run (mkReader flds QUOTE_IN_QUOTED_FIELD buf) Inside rest
  else run (mkReader flds IN_QUOTED_FIELD (buf +:+ String c "")) (next_pos c) rest.
Proof.
  intros Hroom.
  assert (H : run (mkReader flds IN_QUOTED_FIELD buf) pos (String c rest) =
              run (mkReader flds IN_QUOTED_FIELD buf) Inside (String c rest)).
  { destruct pos; try reflexivity.
    rewrite run_after_cr. by destruct (Ascii.eqb c LF). }
  rewrite H, run_inside. clear H.
  unfold parse_process_char, next_pos. simpl.
  destruct (Ascii.eqb_spec c quotechar) as [->|Hq]; [done|].
  rewrite parse_add_char_ok by done. simpl.
  destruct (Ascii.eqb c LF); [done|]. by destruct (Ascii.eqb c CR).
Qed.

Lemma run_close_quote flds buf pos rest :
  run (mkReader flds IN_QUOTED_FIELD buf) pos (String quotechar rest) =
  run (mkReader flds QUOTE_IN_QUOTED_FIELD buf) Inside rest.
Proof. by destruct pos. Qed.

Lemma run_quoted_data f :
  forall flds buf pos rest,
    within_limit (buf +:+ f) ->
    run (mkReader flds IN_QUOTED_FIELD buf) pos (copy_data f +:+ rest) =
    run (mkReader flds IN_QUOTED_FIELD (buf +:+ f)) (pos_after pos f) rest.
Proof.
  induction f as [|c f IH]; intros flds buf pos rest Hlim.
  { by rewrite append_nil_r. }
  pose proof (room _ _ _ Hlim) as Hroom.
  apply within_limit_snoc in Hlim.
  simpl copy_data. simpl pos_after.
  replace (buf +:+ String c f) with ((buf +:+ String c "") +:+ f)
    by (by rewrite append_assoc).
  destruct (Ascii.eqb_spec c quotechar) as [->|Hq].
  - rewrite !append_cons, run_close_quote.
    rewrite (run_step _ (mkReader flds IN_QUOTED_FIELD (buf +:+ String quotechar ""))).
    + by apply IH.
    + unfold parse_process_char. simpl. by rewrite parse_add_char_ok.
    + done.
  - rewrite append_cons, run_in_quoted by done.
    destruct (Ascii.eqb_spec c quotechar) as [|_]; [done|]. by apply IH.
Qed.

Lemma in_field_plain flds buf c :
  special c = false ->
  parse_process_char (mkReader flds IN_FIELD buf) (Some c) =
  parse_add_char (mkReader flds IN_FIELD buf) c.
Proof.
  intros Hc. pose proof (special_false c Hc) as (Hd & Hq & HCR & HLF).
  unfold parse_process_char, is_newline. simpl. by rewrite HCR, HLF, Hd.
Qed.

Lemma run_unquoted f :
  forall flds buf rest,
    needs_quotes f = false ->
    within_limit (buf +:+ f) ->
    run (mkReader flds IN_FIELD buf) Inside (f +:+ rest) =
    run (mkReader flds IN_FIELD (buf +:+ f)) Inside rest.
Proof.
  induction f as [|c f IH]; intros flds buf rest Hf Hlim.
  { by rewrite append_nil_r. }
  simpl in Hf. apply orb_false_iff in Hf as [Hc Hf].
  pose proof (room _ _ _ Hlim) as Hroom.
  apply within_limit_snoc in Hlim.
  replace (buf +:+ String c f) with ((buf +:+ String c "") +:+ f)
    by (by rewrite append_assoc).
  pose proof (special_false c Hc) as (Hd & Hq & HCR & HLF).
  rewrite append_cons.
  rewrite (run_step _ (mkReader flds IN_FIELD (buf +:+ String c ""))).
  - by apply IH.
  - rewrite in_field_plain by done. by rewrite parse_add_char_ok.
  - unfold is_newline. by rewrite HCR, HLF.
Qed.

(** A field without special characters that outgrows the limit makes the
    reader raise. *)
Lemma run_unquoted_overflow f :
  forall flds buf rest,
    needs_quotes f = false ->
    within_limit buf ->
    (field_limit < N.of_nat (String.length (buf +:+ f)))%N ->
    run (mkReader flds IN_FIELD buf) Inside (f +:+ rest) =
    Raise field_larger_than_limit.
Proof.
  induction f as [|c f IH]; intros flds buf rest Hf Hbuf Hover.
  { rewrite append_nil_r in Hover. unfold within_limit in Hbuf. lia. }
  simpl in Hf. apply orb_false_iff in Hf as [Hc Hf].
  pose proof (special_false c Hc) as (Hd & Hq & HCR & HLF).
  rewrite append_cons.
  destruct (N.lt_ge_cases (N.of_nat (String.length buf)) field_limit) as [Hlt|Hge].
  - rewrite (run_step _ (mkReader flds IN_FIELD (buf +:+ String c ""))).
    + apply IH; [done| |by rewrite append_assoc].
      unfold within_limit. rewrite length_append. simpl. lia.
    + rewrite in_field_plain by done. by rewrite parse_add_char_ok.
    + unfold is_newline. by rewrite HCR, HLF.
  - apply run_raise. rewrite in_field_plain by done.
    by rewrite parse_add_char_full.
Qed.

Lemma run_start_plain flds st0 c rest :
  field_start st0 -> special c = false ->
  run (mkReader flds st0 "") Inside (String c rest) =
  run (mkReader flds IN_FIELD (String c "")) Inside rest.
Proof.
  intros Hst Hc. pose proof (special_false c Hc) as (Hd & Hq & HCR & HLF).
  apply run_step; [|unfold is_newline; by rewrite HCR, HLF].
  destruct Hst as [-> | ->];
    unfold parse_process_char, start_field, is_newline; simpl;
    by rewrite HCR, HLF, Hq, Hd.
Qed.

Lemma run_open_quote flds st0 rest :
  field_start st0 ->
  run (mkReader flds st0 "") Inside (String quotechar rest) =
  run (mkReader flds IN_QUOTED_FIELD "") Inside rest.
Proof. intros [-> | ->]; by apply run_step. Qed.

(** The text of a field takes the parser to [field_state]. *)
Lemma run_field flds st0 f d rest :
  field_start st0 ->
  within_limit f ->
  run (mkReader flds st0 "") Inside (standard_quoting f +:+ String d rest) =
  run (field_state flds st0 f) Inside (String d rest).
Proof.
  intros Hst Hlim. unfold standard_quoting, field_state.
  destruct (needs_quotes f) eqn:Hf.
  - rewrite append_cons, append_assoc, run_open_quote by done.
    rewrite run_quoted_data by done.
    by rewrite append_cons, append_nil_l, run_close_quote.
  - destruct f as [|c f]; [done|].
    simpl in Hf. apply orb_false_iff in Hf as [Hc Hf].
    rewrite append_cons, run_start_plain by done.
    by rewrite run_unquoted.
Qed.

Lemma run_delimiter flds st0 f rest :
  field_start st0 ->
  run (field_state flds st0 f) Inside (String delimiter rest) =
  run (mkReader (flds ++ [f]) START_FIELD "") Inside rest.
Proof.
  intros Hst. unfold field_state.
  destruct (needs_quotes f); [by apply run_step|].
  destruct f as [|c f]; [|by apply run_step].
  destruct Hst as [-> | ->]; by apply run_step.
Qed.

Lemma run_lineterminator flds st f rest :
  st = START_FIELD \/ st = IN_FIELD \/ st = QUOTE_IN_QUOTED_FIELD ->
  run (mkReader flds st f) Inside (lineterminator +:+ rest) =
  bind (run parse_reset AtStart rest)
       (fun rows => Return ((flds ++ [f]) :: rows)).
Proof. intros [-> | [-> | ->]]; reflexivity. Qed.

Lemma run_empty_row rest :
  run parse_reset AtStart (lineterminator +:+ rest) =
  bind (run parse_reset AtStart rest) (fun rows => Return ([] :: rows)).
Proof. reflexivity. Qed.

Lemma sep_fields_tail gs rest :
  exists d r, sep_fields gs +:+ lineterminator +:+ rest = String d r.
Proof. destruct gs as [|g gs]; simpl; eauto. Qed.

(** The rest of a row, from the end of a field on. *)
Lemma run_tail gs :
  forall flds st0 f rest,
    field_start st0 ->
    Forall within_limit gs ->
    (gs = [] -> st0 = START_FIELD \/ f <> "" \/ needs_quotes f = true) ->
    run (field_state flds st0 f) Inside (sep_fields gs +:+ lineterminator +:+ rest) =
    bind (run parse_reset AtStart rest)
         (fun rows => Return ((flds ++ f :: gs) :: rows)).
Proof.
  induction gs as [|g gs IH]; intros flds st0 f rest Hst Hlim Hlast.
  - rewrite append_nil_l. unfold field_state.
    destruct (needs_quotes f) eqn:Hf.
    { apply run_lineterminator. by right; right. }
    destruct f as [|c f].
    + destruct (Hlast eq_refl) as [-> | [H | H]]; [|done|done].
      apply run_lineterminator. by left.
    + apply run_lineterminator. by right; left.
  - apply Forall_cons in Hlim as [Hg Hgs].
    simpl sep_fields. rewrite append_cons, run_delimiter by done.
    rewrite append_assoc.
    destruct (sep_fields_tail gs rest) as (d & r & E). rewrite E.
    rewrite run_field by (done || by right). rewrite <- E.
    rewrite IH; [|by right|done|by left].
    apply bind_ext. intros rows. by rewrite <- app_assoc.
Qed.

(** One written row is read back as one row. *)
Lemma run_row flds rest :
  Forall within_limit flds ->
  run parse_reset AtStart (row_text flds +:+ rest) =
  bind (run parse_reset AtStart rest) (fun rows => Return (flds :: rows)).
Proof.
  intros Hlim.
  destruct flds as [|f gs]; [apply run_empty_row|].
  apply Forall_cons in Hlim as [Hf Hgs].
  assert (Hgen :
    (gs = [] -> f <> "" \/ needs_quotes f = true) ->
    run parse_reset AtStart
      ((standard_quoting f +:+ sep_fields gs +:+ lineterminator) +:+ rest) =
    bind (run parse_reset AtStart rest) (fun rows => Return ((f :: gs) :: rows))).
  { intros Hlast. rewrite !append_assoc.
    destruct (sep_fields_tail gs rest) as (d & r & E). rewrite E.
    rewrite run_at_start. unfold parse_reset.
    rewrite run_field by (done || by left). rewrite <- E.
    rewrite run_tail; [done|by left|done|]. intros ->. right. by apply Hlast. }
  unfold row_text. destruct f as [|c f].
  - destruct gs as [|g gs]; [reflexivity|]. by apply Hgen.
  - apply Hgen. intros _. by left.
Qed.

Lemma text_of_rows_cons row rows :
  text_of_rows (row :: rows) = row_text row +:+ text_of_rows rows.
Proof. unfold text_of_rows. simpl. by rewrite writerow_row_text. Qed.

Lemma run_text_of_rows rows :
  Forall (Forall within_limit) rows ->
  run parse_reset AtStart (text_of_rows rows) = Return rows.
Proof.
  induction 1 as [|row rows Hrow _ IH]; [done|].
  by rewrite text_of_rows_cons, run_row, IH.
Qed.

(** The reader gives back the rows of any text the writer wrote, when no
    field is larger than the limit. *)
Lemma reader_text_of_rows rows :
  Forall (Forall within_limit) rows ->
  reader (text_of_rows rows) = Return rows.
Proof. intros H. rewrite reader_run. by apply run_text_of_rows. Qed.

Lemma copies_length n c : String.length (copies n c) = n.
Proof. induction n as [|n IH]; simpl; by rewrite ?IH. Qed.

Lemma copies_plain n c : special c = false -> needs_quotes (copies n c) = false.
Proof. intros Hc. induction n as [|n IH]; simpl; by rewrite ?Hc, ?IH. Qed.

(** A field of plain characters beyond the limit, wherever a field may
    begin, makes the reader raise. *)
Lemma run_long_field flds st0 n c rest :
  field_start st0 -> special c = false ->
  (field_limit < N.of_nat n)%N ->
  run (mkReader flds st0 "") Inside (copies n c +:+ rest) =
  Raise field_larger_than_limit.
Proof.
  intros Hst Hc Hn. destruct n as [|n]; [lia|].
  simpl copies. rewrite append_cons, run_start_plain by done.
  apply run_unquoted_overflow.
  - by apply copies_plain.
  - unfold within_limit, field_limit. simpl. lia.
  - rewrite length_append, copies_length. simpl. lia.
Qed.


Lemma header_within_limit : Forall within_limit App.header.
Proof. repeat constructor; vm_compute; discriminate. Qed.

Lemma rows_of_results_within_limit results :
  Forall (fun r => within_limit (App.url r) /\ within_limit (App.description r))
    results ->
  Forall (Forall within_limit) (App.rows_of_results results).
Proof.
  intros H. constructor; [apply header_within_limit|].
  induction H as [|r results [Hu Hd] _ IH]; simpl; [done|].
  constructor; [|done]. by repeat constructor.
Qed.

(** The file of one record whose description is beyond the limit. *)
Lemma reader_long_description n :
  (field_limit < N.of_nat n)%N ->
  reader (text_of_rows
            (App.rows_of_results [App.mkResult "u" (copies n "a")])) =
  Raise field_larger_than_limit.
Proof.
  intros Hn. rewrite reader_run. unfold App.rows_of_results. simpl map.
  rewrite text_of_rows_cons, run_row by apply header_within_limit.
  rewrite text_of_rows_cons.
  assert (Hrow : row_text ["u"; copies n "a"] =
                 String "u" (String delimiter
                   (copies n "a" +:+ lineterminator))).
  { unfold row_text. simpl sep_fields. unfold standard_quoting at 2.
    rewrite copies_plain by done. by rewrite append_nil_r. }
  rewrite Hrow, !append_cons.
  change (run parse_reset AtStart
            (String "u" (String delimiter
               ((copies n "a" +:+ lineterminator) +:+ text_of_rows []))))
    with (run (mkReader ["u"] START_FIELD "") Inside
            ((copies n "a" +:+ lineterminator) +:+ text_of_rows [])).
  rewrite append_assoc, run_long_field; [done|by right|done|done].
Qed.

End RoundTrip.

(** C5.  When the URL reader yields no URL, the program ends with status 1
    and the message that the input holds no URLs, and the world is left as
    it was: no file written, nothing fetched, nothing printed. *)
Theorem no_urls_exit (env : App.Env) (args : App.Args) (w w' : App.World) :
  App.read_urls (App.input args) w = (Py.Return [], w') ->
  App.main env args w =
    (App.SystemExit "The input CSV contains no URLs.", w)
  /\ App.status (fst (App.main env args w)) = 1%Z.
Proof.
  intros H.
  assert (Hw : w' = w) by (by eapply read_urls_world).
  subst w'.
  assert (Hm : App.main env args w =
               (App.SystemExit "The input CSV contains no URLs.", w)).
  { unfold App.main.
    destruct (App.files w !! App.input args) as [text|] eqn:Hf.
    - unfold App.process_urls, mbind, App.M_bind, App.bindM. by rewrite H.
    - rewrite read_urls_unfold, Hf in H. discriminate H. }
  split; [done|]. by rewrite Hm.
Qed.

Lemma no_urls_exit_witness :
  App.main Examples.env App.default_args
    (Examples.world_with ("url" +:+ Csv.lineterminator)) =
    (App.SystemExit "The input CSV contains no URLs.",
     Examples.world_with ("url" +:+ Csv.lineterminator))
  /\ App.status
       (fst (App.main Examples.env App.default_args
               (Examples.world_with ("url" +:+ Csv.lineterminator)))) = 1%Z.
Proof.
  apply (no_urls_exit Examples.env App.default_args
           (Examples.world_with ("url" +:+ Csv.lineterminator))
           (Examples.world_with ("url" +:+ Csv.lineterminator))).
  reflexivity.
Defined.

(** C4.  [fetch_html] raises for a URL without a scheme such as
    "example.com": the request is built before the [try], so the
    [ValueError] of a malformed URL is not turned into "no content".  In
    general it raises what building the request raises, and of what the
    body of the [with] raises all but [HTTPError], [URLError] and
    [ValueError]; it returns [None] for those three only. *)
Theorem fetch_html_raises_without_scheme (timeout : Z) (user_agent : string)
    (w : App.World) :
  App.fetch_html Examples.env "example.com" timeout user_agent w =
    (Py.Raise (Py.mkExc Py.ValueError "unknown url type: 'example.com'"), w)
  /\ forall env u,
       App.fetch_html env u timeout user_agent w =
       match App.Request_check env u with
       | Some e => (Py.Raise e, w)
       | None =>
           let request := App.mkRequest u [("User-Agent", user_agent)] in
           (match App.open_and_read env (App.requests w) request timeout with
            | Py.Return text => Py.Return (Some text)
            | Py.Raise e =>
                if App.caught_by_fetch e then Py.Return None else Py.Raise e
            end,
            App.mkWorld (App.files w) (App.stdout w)
                        (App.requests w ++ [request]))
       end.
Proof.
  split; [by apply fetch_html_request_error|].
  intros env u. destruct (App.Request_check env u) as [e|] eqn:E.
  - by apply fetch_html_request_error.
  - by apply fetch_html_request_ok.
Qed.

(** C1.  A URL list with one URL without a scheme: [process_urls] raises
    at that URL, no result record is written for any URL, and the program
    ends with status 1. *)
Theorem process_urls_aborts_without_records :
  let text := "https://example.org/" +:+ Csv.lineterminator +:+
              "example.com" +:+ Csv.lineterminator in
  let w := Examples.world_with text in
  let outcome :=
    App.process_urls Examples.env App.DEFAULT_INPUT App.DEFAULT_OUTPUT
      App.DEFAULT_TIMEOUT App.DEFAULT_USER_AGENT w in
  App.read_urls App.DEFAULT_INPUT w =
    (Py.Return ["https://example.org/"; "example.com"], w)
  /\ fst outcome =
     Py.Raise (Py.mkExc Py.ValueError "unknown url type: 'example.com'")
  /\ App.files (snd outcome) !! App.DEFAULT_OUTPUT = None
  /\ fst (App.main Examples.env App.default_args w) =
     App.SystemExit "unknown url type: 'example.com'".
Proof. vm_compute. repeat split; reflexivity. Qed.

(** ** How the reader ends on a file opened with an empty [newline] *)

Section ReaderOutcome.
Import Py Csv.











End ReaderOutcome.




(** C7, amended.  Whatever the records, as long as no URL and no
    description is longer than the field size limit of the csv reader
    (131072 characters), the file [write_results] leaves is read back by
    the reader as the header row followed by the records'
    (URL, description) pairs, unchanged and in the order they were given. *)
Theorem write_results_round_trip (path : string)
    (results : list App.MetaDescriptionResult) (w : App.World) :
  Forall (fun r => Csv.within_limit (App.url r) /\
                   Csv.within_limit (App.description r)) results ->
  exists text,
    App.files (snd (App.write_results path results w)) !! path = Some text
    /\ Csv.reader text =
       Py.Return (App.header ::
                  map (fun r => [App.url r; App.description r]) results).
Proof.
  intros Hlim. rewrite write_results_files. simpl.
  exists (Csv.text_of_rows (App.rows_of_results results)).
  split; [apply lookup_insert_eq|]. apply reader_text_of_rows.
  by apply rows_of_results_within_limit.
Qed.

Lemma write_results_round_trip_witness :
  let results :=
    [App.mkResult "https://example.org/?a=1,2" "He said: hi, all";
     App.mkResult "http://nowhere.invalid/x" ""] in
  exists text,
    App.files (snd (App.write_results App.DEFAULT_OUTPUT results
                      (App.mkWorld ∅ [] []))) !! App.DEFAULT_OUTPUT = Some text
    /\ Csv.reader text =
       Py.Return (App.header ::
                  map (fun r => [App.url r; App.description r]) results).
Proof.
  intros results.
  apply (write_results_round_trip App.DEFAULT_OUTPUT results (App.mkWorld ∅ [] [])).
  repeat constructor; vm_compute; discriminate.
Defined.

(** C7 as stated fails: one record whose description is 131073 characters
    long; [write_results] writes it, and the reader raises at the field
    size limit on reading the file back. *)
Lemma round_trip_fails_on_long_description :
  let results := [App.mkResult "u" (Csv.copies (N.to_nat 131073) "a")] in
  exists text,
    App.files (snd (App.write_results App.DEFAULT_OUTPUT results
                      (App.mkWorld ∅ [] []))) !! App.DEFAULT_OUTPUT = Some text
    /\ Csv.reader text = Py.Raise Csv.field_larger_than_limit.
Proof.
  intros results. rewrite write_results_files.
  exists (Csv.text_of_rows (App.rows_of_results results)).
  split; [apply lookup_insert_eq|].
  apply reader_long_description. rewrite N2Nat.id. reflexivity.
Qed.

(** * Further properties of the program *)

(** ** Trimming and lowering *)

Lemma rstrip_idempotent s : PyStr.rstrip (PyStr.rstrip s) = PyStr.rstrip s.
Proof.
  induction s as [|c r IH]; [done|]. simpl.
  destruct (PyStr.rstrip r) as [|d r'] eqn:E.
  - destruct (PyStr.isspace c) eqn:Ec; [done|]. simpl. by rewrite Ec.
  - change (PyStr.rstrip (String c (String d r'))) with
      (match PyStr.rstrip (String d r') with
       | "" => if PyStr.isspace c then "" else String c ""
       | String a b => String c (String a b)
       end).
    by rewrite IH.
Qed.

Lemma lstrip_head s :
  match PyStr.lstrip s with
  | "" => True
  | String c _ => PyStr.isspace c = false
  end.
Proof.
  induction s as [|c r IH]; [done|]. simpl.
  destruct (PyStr.isspace c) eqn:Ec; [done|]. by rewrite Ec.
Qed.

Lemma lstrip_rstrip_head s :
  match s with "" => True | String c _ => PyStr.isspace c = false end ->
  PyStr.lstrip (PyStr.rstrip s) = PyStr.rstrip s.
Proof.
  destruct s as [|c r]; [done|]. intros Hc. simpl.
  destruct (PyStr.rstrip r); rewrite ?Hc; simpl; by rewrite Hc.
Qed.

Lemma strip_idempotent s : PyStr.strip (PyStr.strip s) = PyStr.strip s.
Proof.
  unfold PyStr.strip.
  rewrite (lstrip_rstrip_head (PyStr.lstrip s)) by apply lstrip_head.
  apply rstrip_idempotent.
Qed.

Lemma lower_char_idempotent c :
  PyStr.lower_char (PyStr.lower_char c) = PyStr.lower_char c.
Proof. by destruct c as [[] [] [] [] [] [] [] []]. Qed.

Lemma lower_idempotent s : PyStr.lower (PyStr.lower s) = PyStr.lower s.
Proof.
  induction s as [|c r IH]; [done|]. simpl.
  by rewrite lower_char_idempotent, IH.
Qed.

(** ** The extractor on pieces of a page *)

Section HtmlMore.
Import Html.

Lemma description_of_tags_no_match_app a b :
  Forall (fun t => ~ matches t) a ->
  description_of_tags (a ++ b) = description_of_tags b.
Proof.
  intros Ha. unfold description_of_tags.
  by rewrite feed_tags_app, feed_tags_no_match.
Qed.

Lemma attribute_snoc attrs a key :
  attribute (attrs ++ [a]) key =
  if PyStr.lower (fst a) =? key then Some (PyStr.or_else (snd a) "")
  else attribute attrs key.
Proof.
  induction attrs as [|x rest IH]; simpl.
  { by destruct (PyStr.lower a.1 =? key). }
  rewrite IH. by destruct (PyStr.lower a.1 =? key).
Qed.

Lemma attributes_fold_lower_names attrs (m : gmap string string) :
  fold_left
    (fun (m : gmap string string) (a : attr) =>
       <[PyStr.lower (fst a) := PyStr.or_else (snd a) ""]> m)
    (Trace.lower_names attrs) m =
  fold_left
    (fun (m : gmap string string) (a : attr) =>
       <[PyStr.lower (fst a) := PyStr.or_else (snd a) ""]> m)
    attrs m.
Proof.
  revert m. induction attrs as [|a rest IH]; intros m; simpl; [done|].
  by rewrite lower_idempotent, IH.
Qed.

End HtmlMore.

(** X1.  Feeding the start tags of a page in two pieces: when the first
    piece holds a matching tag the description is decided there and the
    second piece changes nothing; otherwise it is the description of the
    second piece. *)
Theorem description_of_tags_app (a b : list Html.starttag) :
  Html.description_of_tags (a ++ b) =
  if decide (Exists Html.matches a)
  then Html.description_of_tags a
  else Html.description_of_tags b.
Proof.
  destruct (first_match_split a) as [(pre & t & post & -> & Hpre & Ht)|Hnone].
  - rewrite decide_True.
    + rewrite <- app_assoc. simpl.
      by rewrite !description_first_match.
    + apply Exists_app. right. by constructor.
  - rewrite decide_False.
    + by apply description_of_tags_no_match_app.
    + by apply Forall_Exists_neg.
Qed.

(** X2.  Tags that do not match (tags other than meta, meta tags with
    other names) are ignored wherever they stand among the others. *)
Theorem non_matching_tags_ignored (a junk b : list Html.starttag) :
  Forall (fun t => ~ Html.matches t) junk ->
  Html.description_of_tags (a ++ junk ++ b) = Html.description_of_tags (a ++ b).
Proof.
  intros Hjunk.
  destruct (first_match_split a) as [(pre & t & post & -> & Hpre & Ht)|Hnone].
  - rewrite <- !app_assoc. simpl. by rewrite !description_first_match.
  - by rewrite !description_of_tags_no_match_app.
Qed.

Lemma non_matching_tags_ignored_witness :
  Html.description_of_tags
    ([("html", [])] ++
     [("link", [("rel", Some "icon")]); ("meta", [("name", Some "viewport")])] ++
     [("meta", [("name", Some "description"); ("content", Some "Hello world")])]) =
  Html.description_of_tags
    ([("html", [])] ++
     [("meta", [("name", Some "description"); ("content", Some "Hello world")])]).
Proof.
  apply (non_matching_tags_ignored [("html", [])]
           [("link", [("rel", Some "icon")]); ("meta", [("name", Some "viewport")])]).
  apply Forall_cons_2; [|apply Forall_cons_2; [|apply Forall_nil_2]];
    vm_compute; intros [H1 H2];
    first [discriminate H1 | destruct H2 as [H|[H|H]]; discriminate H].
Defined.

(** X3.  A description that [extract_meta_description] returns never
    begins or ends with white space: trimming it again changes nothing. *)
Theorem extract_meta_description_trimmed (env : App.Env) (html d : string) :
  App.extract_meta_description env html = Py.Return d ->
  PyStr.strip d = d.
Proof.
  destruct (App.starttags env html) as [tags [e|]] eqn:E.
  - rewrite (extract_raised _ _ _ _ E). by intros [=].
  - rewrite (extract_scanned _ _ _ E). intros [= <-].
    destruct (first_match_split tags)
      as [(pre & t & post & -> & Hpre & Ht)|Hnone].
    + rewrite description_first_match by done. apply strip_idempotent.
    + by rewrite description_no_match.
Qed.

Lemma extract_meta_description_trimmed_witness :
  PyStr.strip "OG text" = "OG text".
Proof.
  apply (extract_meta_description_trimmed Examples.env
           Examples.page_og_then_name "OG text").
  reflexivity.
Defined.

(** X4.  The handler does not look at the case of the tag name or of the
    attribute names: it acts the same on the tag with all of them in small
    letters. *)
Theorem handle_starttag_names_lowered (self : Html.MetaDescriptionParser)
    (tag : string) (attrs : list Html.attr) :
  Html.handle_starttag self tag attrs =
  Html.handle_starttag self (PyStr.lower tag) (Trace.lower_names attrs).
Proof.
  unfold Html.handle_starttag, Html.attributes_of.
  by rewrite lower_idempotent, attributes_fold_lower_names.
Qed.

(** X5.  Of a repeated attribute the last one counts: a [content]
    attribute written after the others of a matching tag is the one whose
    trimmed value is recorded. *)
Theorem later_content_overrides (tag : string) (attrs : list Html.attr)
    (name v : string) :
  PyStr.lower name = "content" ->
  Html.matches (tag, attrs) ->
  Html.handle_starttag Html.new_parser tag (attrs ++ [(name, Some v)]) =
  Html.mkParser (Some (PyStr.strip v)).
Proof.
  intros Hname [Hmeta Hm]. rewrite handle_starttag_fresh.
  rewrite decide_True.
  - unfold Html.content_of. simpl. rewrite attribute_snoc. simpl.
    rewrite Hname. simpl. by destruct v.
  - split; [done|]. simpl in *. rewrite !attribute_snoc. simpl.
    by rewrite Hname.
Qed.

Lemma later_content_overrides_witness :
  Html.handle_starttag Html.new_parser "meta"
    ([("name", Some "description"); ("content", Some "first")] ++
     [("CONTENT", Some " second ")]) =
  Html.mkParser (Some (PyStr.strip " second ")).
Proof.
  apply (later_content_overrides "meta"
           [("name", Some "description"); ("content", Some "first")]
           "CONTENT" " second ").
  - reflexivity.
  - vm_compute. split; [reflexivity|]. left. reflexivity.
Defined.

(** ** What a run of the loop leaves behind *)

Section LoopFacts.
Import Py App Trace.

Lemma fetch_all_trace env timeout ua urls :
  forall acc w results w',
    fetch_all env timeout ua urls acc w = (Return results, w') ->
    w' = mkWorld (files w) (stdout w ++ map fetch_line urls)
                 (requests w ++ map (request_for ua) urls) /\
    exists ds,
      results = acc ++ ds /\ length ds = length urls /\
      forall i u,
        urls !! i = Some u ->
        exists d,
          description_at env timeout ua
            (requests w ++ map (request_for ua) (take i urls)) u = Return d /\
          ds !! i = Some (mkResult u d).
Proof.
  induction urls as [|u rest IH]; intros acc w results w'.
  { simpl. intros [= <- <-]. rewrite !app_nil_r. split; [by destruct w|].
    exists []. rewrite app_nil_r. split; [done|]. split; [done|].
    intros i u Hi. done. }
  rewrite fetch_all_cons.
  destruct (fetch_html env u timeout ua _) as [[html|e] w2] eqn:Hf; [|by intros [=]].
  apply fetch_html_returns in Hf as [-> Hd]. simpl in Hd.
  destruct (description_of_page env html) as [d|e] eqn:Ed; [|by intros [=]].
  intros H. apply IH in H as (-> & ds & -> & Hlen & Hds). simpl.
  split. { by rewrite <- !app_assoc. }
  exists (mkResult u d :: ds).
  split; [by rewrite <- app_assoc|]. split; [simpl; by rewrite Hlen|].
  intros [|i] v Hi; simpl in *.
  - injection Hi as <-. exists d. by rewrite app_nil_r.
  - destruct (Hds i v Hi) as (d' & Hd' & Hi'). exists d'.
    by rewrite <- app_assoc in Hd'.
Qed.


Lemma process_urls_unfold env input_path output_path timeout ua w :
  process_urls env input_path output_path timeout ua w =
  match read_urls input_path w with
  | (Return [], _) => (Raise no_urls, w)
  | (Return urls, _) =>
      match fetch_all env timeout ua urls [] w with
      | (Return results, w1) => write_results output_path results w1
      | (Raise e, w1) => (Raise e, w1)
      end
  | (Raise e, _) => (Raise e, w)
  end.
Proof.
  unfold process_urls, mbind, M_bind, bindM.
  destruct (read_urls input_path w) as [[urls|e] w0] eqn:Hr;
    apply read_urls_world in Hr as ->; [|done].
  by destruct urls.
Qed.

End LoopFacts.

(** ** The URL list once more *)

Section UrlFacts.
Import Py App Trace.

Lemma urls_of_rows_clean rows : Forall clean_url (urls_of_rows rows).
Proof.
  apply Forall_forall. intros u Hu. unfold urls_of_rows in Hu.
  apply list_elem_of_filter in Hu as [[Hne Hurl] Hin].
  apply list_elem_of_In, in_map_iff in Hin as (row & <- & _).
  split; [apply strip_idempotent|done].
Qed.




Lemma read_urls_loop_heads rows1 :
  forall rows2 urls,
    map head rows1 = map head rows2 ->
    read_urls_loop urls rows1 = read_urls_loop urls rows2.
Proof.
  induction rows1 as [|r1 rows1 IH]; intros [|r2 rows2] urls H;
    try discriminate H; [done|].
  simpl in H. injection H as Hh Hrest.
  destruct r1 as [|f1 r1], r2 as [|f2 r2]; try discriminate Hh; simpl.
  - by apply IH.
  - injection Hh as <-.
    destruct (PyStr.lower (PyStr.strip f1) =? "url"); [by apply IH|].
    destruct (PyStr.truthy (PyStr.strip f1)); by apply IH.
Qed.

End UrlFacts.

(** X6.  Every URL that [read_urls] returns is trimmed, not empty, and
    not the word "url" in any case. *)
Theorem read_urls_clean (input_path : string) (w w' : App.World)
    (urls : list string) :
  App.read_urls input_path w = (Py.Return urls, w') ->
  Forall Trace.clean_url urls.
Proof.
  rewrite read_urls_unfold.
  destruct (App.files w !! input_path) as [text|]; [|by intros [=]].
  destruct (Csv.reader text) as [rows|e]; simpl; [|by intros [=]].
  intros [= <- _]. apply urls_of_rows_clean.
Qed.

Lemma read_urls_clean_witness :
  Forall Trace.clean_url ["https://a.example/"; "b.example"].
Proof.
  apply (read_urls_clean App.DEFAULT_INPUT
           (Examples.world_with
              (" URL ,note" +:+ Csv.lineterminator +:+
               "  https://a.example/ ,x" +:+ Csv.lineterminator +:+
               "   ," +:+ Csv.lineterminator +:+
               "b.example" +:+ Csv.lineterminator))
           (Examples.world_with
              (" URL ,note" +:+ Csv.lineterminator +:+
               "  https://a.example/ ,x" +:+ Csv.lineterminator +:+
               "   ," +:+ Csv.lineterminator +:+
               "b.example" +:+ Csv.lineterminator))).
  reflexivity.
Defined.

(** X7.  Only the first column counts: two inputs whose rows begin with the
    same fields (or are empty at the same places) give the same URL list,
    whatever their other columns hold. *)
Theorem read_urls_first_column (rows1 rows2 : list (list string)) :
  map head rows1 = map head rows2 ->
  App.read_urls_loop [] rows1 = App.read_urls_loop [] rows2.
Proof. apply read_urls_loop_heads. Qed.

Lemma read_urls_first_column_witness :
  App.read_urls_loop [] [["https://a.example/"; "x"; "y"]; []; ["url"]] =
  App.read_urls_loop [] [["https://a.example/"]; []; ["url"; "title"]].
Proof.
  apply (read_urls_first_column
           [["https://a.example/"; "x"; "y"]; []; ["url"]]
           [["https://a.example/"]; []; ["url"; "title"]]).
  reflexivity.
Defined.

(** ** Whole runs *)

(** X8.  When [process_urls] returns, the input held at least one URL; the
    run printed one line and sent one request, with the given user agent,
    per URL, in order; the output file holds the header and one row per
    URL, the description of each URL being what its page gave (the
    extraction returned it), or empty when its fetch gave no page; and no
    other file changed. *)
Theorem process_urls_success (env : App.Env) (input_path output_path : string)
    (timeout : Z) (user_agent : string) (w w' : App.World) :
  App.process_urls env input_path output_path timeout user_agent w =
    (Py.Return tt, w') ->
  exists urls results,
    App.read_urls input_path w = (Py.Return urls, w) /\
    urls <> [] /\
    length results = length urls /\
    (forall k u,
        urls !! k = Some u ->
        exists d,
          Trace.description_at env timeout user_agent
            (App.requests w ++
             map (Trace.request_for user_agent) (take k urls)) u =
            Py.Return d /\
          results !! k = Some (App.mkResult u d)) /\
    w' = App.mkWorld
           (<[output_path := Csv.text_of_rows (App.rows_of_results results)]>
              (App.files w))
           (App.stdout w ++ map Trace.fetch_line urls)
           (App.requests w ++ map (Trace.request_for user_agent) urls).
Proof.
  rewrite process_urls_unfold.
  destruct (App.read_urls input_path w) as [[urls|e] w0] eqn:Hr; [|by intros [=]].
  pose proof (read_urls_world _ _ _ _ Hr) as ->.
  destruct urls as [|u0 urls0]; [by intros [=]|].
  destruct (App.fetch_all env timeout user_agent (u0 :: urls0) [] w)
    as [[results|e] w1] eqn:Hf; [|by intros [=]].
  apply fetch_all_trace in Hf as (-> & ds & -> & Hlen & Hds).
  rewrite write_results_files. simpl. intros [= <-].
  exists (u0 :: urls0), ds. done.
Qed.

Lemma process_urls_success_witness :
  let text := "https://example.org/" +:+ Csv.lineterminator +:+
              "http://nowhere.invalid/x" +:+ Csv.lineterminator in
  let w := Examples.world_with text in
  exists urls results,
    App.read_urls App.DEFAULT_INPUT w = (Py.Return urls, w) /\
    urls <> [] /\
    length results = length urls /\
    (forall k u,
        urls !! k = Some u ->
        exists d,
          Trace.description_at Examples.env App.DEFAULT_TIMEOUT
            App.DEFAULT_USER_AGENT
            (App.requests w ++
             map (Trace.request_for App.DEFAULT_USER_AGENT) (take k urls)) u =
            Py.Return d /\
          results !! k = Some (App.mkResult u d)) /\
    snd (App.process_urls Examples.env App.DEFAULT_INPUT App.DEFAULT_OUTPUT
           App.DEFAULT_TIMEOUT App.DEFAULT_USER_AGENT w) =
    App.mkWorld
      (<[App.DEFAULT_OUTPUT := Csv.text_of_rows (App.rows_of_results results)]>
         (App.files w))
      (App.stdout w ++ map Trace.fetch_line urls)
      (App.requests w ++ map (Trace.request_for App.DEFAULT_USER_AGENT) urls).
Proof.
  intros text w.
  apply (process_urls_success Examples.env App.DEFAULT_INPUT App.DEFAULT_OUTPUT
           App.DEFAULT_TIMEOUT App.DEFAULT_USER_AGENT w).
  vm_compute. reflexivity.
Defined.

Section RunFacts.
Import Py App Trace.

Lemma process_urls_written env input_path output_path timeout ua w w' :
  process_urls env input_path output_path timeout ua w = (Return tt, w') ->
  exists results w1,
    results <> [] /\
    read_urls input_path w = (Return (map url results), w) /\
    fetch_all env timeout ua (map url results) [] w = (Return results, w1) /\
    files w' =
      <[output_path := Csv.text_of_rows (rows_of_results results)]> (files w).
Proof.
  rewrite process_urls_unfold.
  destruct (read_urls input_path w) as [[urls|e] w0] eqn:Hr; [|by intros [=]].
  pose proof (read_urls_world _ _ _ _ Hr) as ->.
  destruct urls as [|u0 urls0]; [by intros [=]|].
  destruct (fetch_all env timeout ua (u0 :: urls0) [] w)
    as [[results|e] w1] eqn:Hf; [|by intros [=]].
  pose proof (fetch_all_urls _ _ _ _ _ _ _ _ Hf) as Hu. simpl in Hu.
  pose proof (fetch_all_files _ _ _ _ _ _ _ _ Hf) as Hfiles.
  rewrite write_results_files. intros [= <-]. simpl.
  exists results, w1. rewrite Hu, Hfiles. split; [|done].
  intros ->. discriminate Hu.
Qed.







Lemma issubclass_Exception c : issubclass c Exception = true.
Proof. by destruct c. Qed.


End RunFacts.

(** X9.  There is no partial output when [process_urls] raises before it
    writes: when reading the URL list raises, when it gives no URL, and
    when the loop raises (a fetch or an extraction raised),
    [process_urls] raises the same and every file is as it was before. *)
Theorem process_urls_raise_before_write (env : App.Env)
    (input_path output_path : string) (timeout : Z) (user_agent : string)
    (w : App.World) :
  (forall e w0,
      App.read_urls input_path w = (Py.Raise e, w0) ->
      App.process_urls env input_path output_path timeout user_agent w =
        (Py.Raise e, w))
  /\ (forall w0,
        App.read_urls input_path w = (Py.Return [], w0) ->
        App.process_urls env input_path output_path timeout user_agent w =
          (Py.Raise App.no_urls, w))
  /\ (forall urls w0 e w1,
        App.read_urls input_path w = (Py.Return urls, w0) ->
        urls <> [] ->
        App.fetch_all env timeout user_agent urls [] w = (Py.Raise e, w1) ->
        App.process_urls env input_path output_path timeout user_agent w =
          (Py.Raise e, w1)
        /\ App.files w1 = App.files w).
Proof.
  split; [|split].
  - intros e w0 Hr. by rewrite process_urls_unfold, Hr.
  - intros w0 Hr. by rewrite process_urls_unfold, Hr.
  - intros urls w0 e w1 Hr Hne Hf. rewrite process_urls_unfold, Hr.
    destruct urls as [|u0 urls0]; [done|]. rewrite Hf.
    split; [done|]. by eapply fetch_all_files.
Qed.

Lemma process_urls_raise_before_write_witness :
  let w := Examples.world_with
             ("https://example.org/" +:+ Csv.lineterminator +:+
              "example.com" +:+ Csv.lineterminator) in
  let e := Py.mkExc Py.ValueError "unknown url type: 'example.com'" in
  let w1 := snd (App.fetch_all Examples.env App.DEFAULT_TIMEOUT
                   App.DEFAULT_USER_AGENT
                   ["https://example.org/"; "example.com"] [] w) in
  App.process_urls Examples.env App.DEFAULT_INPUT App.DEFAULT_OUTPUT
    App.DEFAULT_TIMEOUT App.DEFAULT_USER_AGENT w = (Py.Raise e, w1)
  /\ App.files w1 = App.files w.
Proof.
  intros w e w1.
  apply (proj2 (proj2 (process_urls_raise_before_write Examples.env
                         App.DEFAULT_INPUT App.DEFAULT_OUTPUT
                         App.DEFAULT_TIMEOUT App.DEFAULT_USER_AGENT w))
           ["https://example.org/"; "example.com"] w e w1).
  - vm_compute. reflexivity.
  - discriminate.
  - vm_compute. reflexivity.
Defined.



(** X11.  When [main] returns (status 0), the input held at least one
    URL and the run replaced the output file, and no other, with the
    header and one row per URL of the input, in order. *)
Theorem main_finished (env : App.Env) (args : App.Args) (w w' : App.World) :
  App.main env args w = (App.Finished, w') ->
  exists results,
    results <> [] /\
    App.read_urls (App.input args) w = (Py.Return (map App.url results), w) /\
    App.files w' =
      <[App.output args := Csv.text_of_rows (App.rows_of_results results)]>
        (App.files w).
Proof.
  unfold App.main.
  destruct (App.files w !! App.input args) as [text|]; [|by intros [=]].
  destruct (App.process_urls env (App.input args) (App.output args)
              (App.arg_timeout args) (App.user_agent args) w)
    as [[[]|e] w1] eqn:Hp.
  - intros [= <-].
    apply process_urls_written in Hp as (results & w2 & Hne & Hr & _ & Hf).
    by exists results.
  - rewrite issubclass_Exception. by intros [=].
Qed.

Lemma main_finished_witness :
  let w := Examples.world_with
             ("url" +:+ Csv.lineterminator +:+
              "https://example.org/" +:+ Csv.lineterminator +:+
              "http://nowhere.invalid/x" +:+ Csv.lineterminator) in
  let w' := snd (App.main Examples.env App.default_args w) in
  exists results,
    results <> [] /\
    App.read_urls App.DEFAULT_INPUT w = (Py.Return (map App.url results), w) /\
    App.files w' =
      <[App.DEFAULT_OUTPUT := Csv.text_of_rows (App.rows_of_results results)]>
        (App.files w).
Proof.
  intros w w'.
  apply (main_finished Examples.env App.default_args w w').
  vm_compute. reflexivity.
Defined.







(** X15.  The loop of [process_urls] is sequential: fetching a list made
    of two parts is fetching the first part and then, from the records and
    the world that leaves, the second; when the first part raises the
    second is not begun. *)
Theorem fetch_all_app (env : App.Env) (timeout : Z) (user_agent : string)
    (urls1 urls2 : list string) (acc : list App.MetaDescriptionResult)
    (w : App.World) :
  App.fetch_all env timeout user_agent (urls1 ++ urls2) acc w =
  match App.fetch_all env timeout user_agent urls1 acc w with
  | (Py.Return results, w1) =>
      App.fetch_all env timeout user_agent urls2 results w1
  | (Py.Raise e, w1) => (Py.Raise e, w1)
  end.
Proof.
  revert acc w. induction urls1 as [|u urls1 IH]; intros acc w; [done|].
  rewrite <- app_comm_cons, !fetch_all_cons.
  destruct (App.fetch_html env u timeout user_agent _) as [[html|e] w2]; [|done].
  destruct (Trace.description_of_page env html) as [d|e]; [|done].
  apply IH.
Qed.
